(** * WWSI-GenAI, bonus notebooks: the realtime voice bridge and the voice chat UI

    A shallow embedding of

      - notebooks/bonus/W4_realtime_voice_agent_BLANK.py  (module [Realtime])
      - notebooks/bonus/W4_voice_chat_app_BLANK.py        (module [VoiceChat])

    Both files are the exercise versions: several statements are
    placeholders ([pass], a constant string) under a TODO comment.  The
    definitions below follow the statements that are in the files, the
    placeholders included. *)

From Stdlib Require Import ZArith Lia DecimalString.
From Stdlib.Strings Require Import Byte.
From stdpp Require Import base strings list gmap.

Local Set Warnings "-register-all".
Local Open Scope Z_scope.

(** Python [bytes]. *)
Abbreviation bytes := (list byte).

(** The line terminator [print] writes after its arguments. *)
Definition nl : string := String (Ascii.ascii_of_nat 10) EmptyString.

(** Exceptions the two scripts can meet, with the text [str(e)] gives. *)
Inductive exn : Type :=
  | QueueFull
  | Exception (text : string).

(** [str(e)] *)
Definition exn_text (e : exn) : string :=
  match e with
  | Exception text => text
  | QueueFull => EmptyString
  end.

Inductive result (A : Type) : Type :=
  | Ok (a : A)
  | Raise (e : exn).
Arguments Ok {A} a.
Arguments Raise {A} e.

(** ** asyncio.Queue

    Only what the bridge uses.  A queue built with [maxsize <= 0] is
    infinite: [full] is then always false and [put_nowait] never raises. *)
Module Queue.

Record t : Type := mk { maxsize : Z; items : list bytes }.

(** [asyncio.Queue(maxsize=0)] *)
Definition new (maxsize : Z) : t := {| maxsize := maxsize; items := [] |}.

Definition qsize (q : t) : Z := Z.of_nat (length (items q)).

Definition full (q : t) : bool :=
  if maxsize q <=? 0 then false else maxsize q <=? qsize q.

(** Never waits: the item is stored at the tail, or [QueueFull] is raised. *)
Definition put_nowait (q : t) (item : bytes) : result t :=
  if full q then Raise QueueFull
  else Ok {| maxsize := maxsize q; items := items q ++ [item] |}.

(** [get] when it need not wait: the oldest item leaves the queue.  On
    an empty queue [get] waits, which is [None] here. *)
Definition get (q : t) : option (bytes * t) :=
  match items q with
  | [] => None
  | item :: rest => Some (item, {| maxsize := maxsize q; items := rest |})
  end.

End Queue.

(** ** W4_realtime_voice_agent_BLANK.py *)
Module Realtime.

(** A decoded JSON value, as far as the receiver looks into one:
    numbers, booleans and arrays, which no branch reads, are left out.
    A string holds the bytes of the [str] in UTF-8; a lone surrogate,
    which [json.loads] lets through (as in "\ud83d"), stands as the
    three bytes ED A0..BF 80..BF. *)
Inductive json : Type :=
  | JNull
  | JStr (s : string)
  | JObj (fields : gmap string json).

(** [bool(v)] *)
Definition truthy (v : json) : bool :=
  match v with
  | JNull => false
  | JStr s => negb (bool_decide (s = EmptyString))
  | JObj fields => negb (bool_decide (fields = ∅))
  end.

(** [v == s] for a string literal [s] *)
Definition eq_str (v : json) (s : string) : bool :=
  match v with
  | JStr s' => bool_decide (s' = s)
  | _ => false
  end.

(** [v.get(key, default)]; only a dict has [get]. *)
Definition get (v : json) (key : string) (dflt : json) : result json :=
  match v with
  | JObj fields => Ok (default dflt (fields !! key))
  | JStr _ => Raise (Exception "'str' object has no attribute 'get'")
  | JNull => Raise (Exception "'NoneType' object has no attribute 'get'")
  end.

(** What the terminal and the loudspeaker see. *)
Inductive effect : Type :=
  | PrintLine (line : string)                            (* print(line) *)
  | PrintValue (prefix : string) (v : json) (end_ : string)
                                      (* print(f"{prefix}{v}", end=end_) *)
  | PlayAudio (audio_bytes : bytes).          (* a call of play_audio *)

Record RealtimeVoiceAgent : Type := mkAgent {
  websocket : option string;
  is_running : bool;
  audio_queue : Queue.t;
  playback_queue : Queue.t;
  is_speaking : bool
}.

(** [RealtimeVoiceAgent.__init__] *)
Definition __init__ : RealtimeVoiceAgent :=
  {| websocket := None;
     is_running := false;
     audio_queue := Queue.new 0;
     playback_queue := Queue.new 0;
     is_speaking := false |}.

Definition set_audio_queue (q : Queue.t) (a : RealtimeVoiceAgent) :=
  {| websocket := websocket a; is_running := is_running a;
     audio_queue := q; playback_queue := playback_queue a;
     is_speaking := is_speaking a |}.

Definition set_is_speaking (b : bool) (a : RealtimeVoiceAgent) :=
  {| websocket := websocket a; is_running := is_running a;
     audio_queue := audio_queue a; playback_queue := playback_queue a;
     is_speaking := b |}.

(** [audio_callback(indata, frames, time, status)], the closure of
    [send_audio].  [status] is [None] when no flag is set, else the
    text of the flags; [indata] stands for [indata.tobytes()]. *)
Definition audio_callback (indata : bytes) (status : option string)
    (a : RealtimeVoiceAgent) : RealtimeVoiceAgent * list effect :=
  let out := match status with
             | Some flags => [PrintLine ("Audio input status: " +:+ flags)]
             | None => []
             end in
  let audio_bytes := indata in
  match Queue.put_nowait (audio_queue a) audio_bytes with
  | Ok q => (set_audio_queue q a, out)
  | Raise _ => (a, out)          (* except asyncio.QueueFull: pass *)
  end.

Definition REALTIME_URL : string :=
  "wss://api.openai.com/v1/realtime?model=gpt-4o-realtime-preview".

(** The agent as [run] has it when the two loops start: connected,
    [is_running] set. *)
Definition started : RealtimeVoiceAgent :=
  {| websocket := Some REALTIME_URL;
     is_running := true;
     audio_queue := audio_queue __init__;
     playback_queue := playback_queue __init__;
     is_speaking := is_speaking __init__ |}.

(** The capture device calling back once per frame. *)
Fixpoint capture (frames : list bytes) (a : RealtimeVoiceAgent)
    : RealtimeVoiceAgent :=
  match frames with
  | [] => a
  | f :: rest => capture rest (fst (audio_callback f None a))
  end.

(** [play_audio]: the body under [try] is [pass]; the call itself is
    recorded. *)
Definition play_audio (audio_bytes : bytes) : list effect :=
  [PlayAudio audio_bytes].

(** What one [await asyncio.wait_for(self.websocket.recv(), 0.1)]
    followed by [json.loads] can come to.  [Failed] carries [str(e)]
    of what [recv] or [json.loads] raised; those messages are ASCII. *)
Inductive received : Type :=
  | TimedOut                         (* asyncio.TimeoutError *)
  | Closed                          (* ConnectionClosed *)
  | Failed (text : string)          (* recv or json.loads raised *)
  | Message (event : json).

(** The state of the receiver between two iterations. *)
Record receiver : Type := mkReceiver {
  agent : RealtimeVoiceAgent;
  audio_buffer : list bytes;
  output : list effect
}.

Definition emit (es : list effect) (r : receiver) : receiver :=
  {| agent := agent r; audio_buffer := audio_buffer r;
     output := output r ++ es |}.

(** *** What [print] refuses

    The terminal takes UTF-8 ([sys.stdout] with its strict error
    handler), so [print] writes any text but one with a lone surrogate
    in it: for that, [UnicodeEncodeError] is raised and nothing is
    written. *)

Definition byte_value (c : Ascii.ascii) : Z := Z.of_nat (Ascii.nat_of_ascii c).

(** A byte 10xxxxxx: inside a character, not at its start. *)
Definition is_continuation (c : Ascii.ascii) : bool :=
  (128 <=? byte_value c) && (byte_value c <? 192).

(** The surrogate the text starts with, if it starts with one. *)
Definition surrogate_at (text : string) : option Z :=
  match text with
  | String c1 (String c2 (String c3 _)) =>
    if (byte_value c1 =? 237) && (160 <=? byte_value c2)
       && (byte_value c2 <? 192) && is_continuation c3
    then Some (55296 + (byte_value c2 - 160) * 64 + (byte_value c3 - 128))
    else None
  | _ => None
  end.

(** How many surrogates the text starts with, one after the other. *)
Fixpoint surrogate_run (text : string) : nat :=
  match surrogate_at text, text with
  | Some _, String _ (String _ (String _ rest)) => S (surrogate_run rest)
  | _, _ => 0%nat
  end.

(** The first surrogate of the text: its index counted in characters
    from [position], its value, and the length of the run it starts. *)
Fixpoint first_surrogate (text : string) (position : nat)
    : option (nat * Z * nat) :=
  match text with
  | EmptyString => None
  | String c rest =>
    match surrogate_at text with
    | Some u => Some (position, u, surrogate_run text)
    | None =>
      first_surrogate rest (if is_continuation c then position else S position)
    end
  end.

Definition hex_digit (d : Z) : Ascii.ascii :=
  Ascii.ascii_of_nat (Z.to_nat (if d <? 10 then 48 + d else 87 + d)).

(** [f"{u:04x}"] for [u] below 65536 *)
Definition hex4 (u : Z) : string :=
  String (hex_digit (u / 4096 mod 16))
    (String (hex_digit (u / 256 mod 16))
       (String (hex_digit (u / 16 mod 16))
          (String (hex_digit (u mod 16)) EmptyString))).

Definition decimal (n : nat) : string :=
  NilEmpty.string_of_uint (Nat.to_uint n).

(** The [UnicodeEncodeError] that writing [text] raises, with the text
    [str(e)] gives; [None] when the text goes out. *)
Definition encode_error (text : string) : option exn :=
  match first_surrogate text 0 with
  | None => None
  | Some (start, u, run) =>
    Some (Exception
      (if (run =? 1)%nat
       then "'utf-8' codec can't encode character '\u" +:+ hex4 u
            +:+ "' in position " +:+ decimal start
            +:+ ": surrogates not allowed"
       else "'utf-8' codec can't encode characters in position "
            +:+ decimal start +:+ "-" +:+ decimal (start + run - 1)
            +:+ ": surrogates not allowed"))
  end.

(** [print(f"{prefix}{v}", end=end_)].  What is formatted from a dict
    or from [None] is ASCII where it matters ([repr] escapes a
    surrogate); a string goes in as it is. *)
Definition print_value (prefix : string) (v : json) (end_ : string)
    (r : receiver) : result receiver :=
  match match v with
        | JStr text => encode_error (prefix +:+ text)
        | _ => None
        end with
  | Some e => Raise e
  | None => Ok (emit [PrintValue prefix v end_] r)
  end.

(** The body of [try] for one decoded message.  [Raise] leaves through
    [except Exception]. *)
Definition dispatch (event : json) (r : receiver) : result receiver :=
  match get event "type" (JStr EmptyString) with
  | Raise e => Raise e
  | Ok event_type =>
    if eq_str event_type "session.created" then
      Ok (emit [PrintLine "Session created successfully"] r)
    else if eq_str event_type "session.updated" then
      Ok (emit [PrintLine "Session updated"] r)
    else if eq_str event_type "input_audio_buffer.speech_started" then
      Ok {| agent := set_is_speaking false (agent r);
            audio_buffer := audio_buffer r;
            output := output r ++ [PrintLine "Listening..."] |}
    else if eq_str event_type "input_audio_buffer.speech_stopped" then
      Ok (emit [PrintLine "Processing..."] r)
    else if eq_str event_type
              "conversation.item.input_audio_transcription.completed" then
      match get event "transcript" (JStr EmptyString) with
      | Raise e => Raise e
      | Ok transcript =>
        if truthy transcript
        then print_value "You: " transcript nl r
        else Ok r
      end
    else if eq_str event_type "response.audio_transcript.delta" then
      match get event "delta" (JStr EmptyString) with
      | Raise e => Raise e
      | Ok delta => print_value EmptyString delta EmptyString r
      end
    else if eq_str event_type "response.audio_transcript.done" then
      Ok (emit [PrintLine EmptyString] r)
    else if eq_str event_type "response.audio.delta" then
      Ok r                                            (* TODO 4: pass *)
    else if eq_str event_type "response.audio.done" then
      let r' :=
        match audio_buffer r with
        | [] => r
        | _ :: _ =>
          {| agent := agent r; audio_buffer := [];
             output := output r ++ play_audio (concat (audio_buffer r)) |}
        end in
      Ok {| agent := set_is_speaking false (agent r');
            audio_buffer := audio_buffer r'; output := output r' |}
    else if eq_str event_type "response.done" then
      Ok (emit [PrintLine "Response complete"] r)
    else if eq_str event_type "error" then
      match get event "error" (JObj ∅) with
      | Raise e => Raise e
      | Ok error =>
        match get error "message" (JStr "Unknown error") with
        | Raise e => Raise e
        | Ok message => print_value "Error: " message nl r
        end
      end
    else Ok r
  end.

(** [except Exception as e: if self.is_running: print(...)] *)
Definition receive_error (text : string) (r : receiver) : receiver :=
  if is_running (agent r) then emit [PrintLine ("Receive error: " +:+ text)] r
  else r.

(** The [while self.is_running] loop over what arrives; an exhausted
    inbox is the task being cancelled while it waits. *)
Fixpoint receive_loop (inbox : list received) (r : receiver) : receiver :=
  match inbox with
  | [] => r
  | m :: rest =>
    if negb (is_running (agent r)) then r else
    match m with
    | TimedOut => receive_loop rest r
    | Closed => emit [PrintLine "Connection closed"] r
    | Failed text => receive_loop rest (receive_error text r)
    | Message event =>
      match dispatch event r with
      | Ok r' => receive_loop rest r'
      | Raise e => receive_loop rest (receive_error (exn_text e) r)
      end
    end
  end.

(** [receive_messages]: the loop started on an empty buffer. *)
Definition receive_messages (inbox : list received)
    (a : RealtimeVoiceAgent) : receiver :=
  receive_loop inbox {| agent := a; audio_buffer := []; output := [] |}.

(** The [PlayAudio] calls among the effects, in order. *)
Definition played (es : list effect) : list bytes :=
  omap (fun e => match e with PlayAudio b => Some b | _ => None end) es.

(** The receiver has buffered nothing and played nothing. *)
Definition silent (r : receiver) : Prop :=
  audio_buffer r = [] /\ played (output r) = [].

(** The send queue has a bound: some number that the count of queued
    frames never exceeds, whatever the capture device delivers. *)
Definition bounded_send_queue (a : RealtimeVoiceAgent) : Prop :=
  exists n : Z, forall frames : list bytes,
    Queue.qsize (audio_queue (capture frames a)) <= n.

(** Two events of the vendor's protocol. *)
Definition audio_delta (b64 : string) : json :=
  JObj (<["type" := JStr "response.audio.delta"]>
        (<["delta" := JStr b64]> ∅)).

Definition audio_done : json :=
  JObj (<["type" := JStr "response.audio.done"]> ∅).

(** The event types [receive_messages] has a branch for. *)
Definition handled_types : list string :=
  [ "session.created"; "session.updated";
    "input_audio_buffer.speech_started";
    "input_audio_buffer.speech_stopped";
    "conversation.item.input_audio_transcription.completed";
    "response.audio_transcript.delta"; "response.audio_transcript.done";
    "response.audio.delta"; "response.audio.done";
    "response.done"; "error" ].

Definition is_timeout (m : received) : bool :=
  match m with
  | TimedOut => true
  | _ => false
  end.

(** *** The sender *)

(** What happens around the [while] loop of [send_audio]: the capture
    device calls back with a frame, or the loop takes a turn. *)
Inductive tick : Type :=
  | Captured (indata : bytes) (status : option string)
  | Turn.

(** The sender between two ticks: the agent, the frames bound to
    [audio_bytes] so far, and what was printed. *)
Record sender : Type := mkSender {
  mic : RealtimeVoiceAgent;
  taken : list bytes;
  said : list effect
}.

(** One pass through the body of the loop.  With a frame waiting,
    [audio_bytes] is bound to it and TODO 3 is [pass]; with none,
    [wait_for] runs into its timeout and the loop continues. *)
Definition send_iteration (a : RealtimeVoiceAgent)
    : RealtimeVoiceAgent * option bytes :=
  match Queue.get (audio_queue a) with
  | Some (audio_bytes, q) => (set_audio_queue q a, Some audio_bytes)
  | None => (a, None)
  end.

Fixpoint send_loop (ticks : list tick) (x : sender) : sender :=
  match ticks with
  | [] => x
  | t :: rest =>
    if negb (is_running (mic x)) then x else
    match t with
    | Captured indata status =>
      let '(a, out) := audio_callback indata status (mic x) in
      send_loop rest {| mic := a; taken := taken x; said := said x ++ out |}
    | Turn =>
      let '(a, audio_bytes) := send_iteration (mic x) in
      send_loop rest
        {| mic := a;
           taken := taken x ++ match audio_bytes with
                               | Some frame => [frame]
                               | None => []
                               end;
           said := said x |}
    end
  end.

(** [send_audio] *)
Definition send_audio (ticks : list tick) (a : RealtimeVoiceAgent) : sender :=
  send_loop ticks
    {| mic := a; taken := [];
       said := [PrintLine "Microphone ready. Start speaking..."] |}.

(** The frames the capture device delivered, in order. *)
Definition captured (ticks : list tick) : list bytes :=
  omap (fun t => match t with
                 | Captured indata _ => Some indata
                 | Turn => None
                 end) ticks.

(** A third event: the delta of a reply's transcript that is the lone
    surrogate "\ud83d", bytes ED A0 BD. *)
Definition lone_surrogate_delta : json :=
  JObj (<["type" := JStr "response.audio_transcript.delta"]>
        (<["delta" := JStr (String (Ascii.ascii_of_nat 237)
                              (String (Ascii.ascii_of_nat 160)
                                 (String (Ascii.ascii_of_nat 189)
                                    EmptyString)))]> ∅)).

(** The same receiver, or sender, around another agent. *)
Definition with_agent (a : RealtimeVoiceAgent) (r : receiver) : receiver :=
  {| agent := a; audio_buffer := audio_buffer r; output := output r |}.

Definition with_mic (a : RealtimeVoiceAgent) (x : sender) : sender :=
  {| mic := a; taken := taken x; said := said x |}.

End Realtime.

(** ** W4_voice_chat_app_BLANK.py *)
Module VoiceChat.

(** One entry of [st.session_state.messages].  The dicts the script
    builds always carry [role] and [content]; the other keys may be
    missing, which is [None] here, as it is for [dict.get]. *)
Record message : Type := mkMessage {
  role : string;
  content : string;
  from_voice : option bool;
  audio : option bytes;
  just_generated : option bool
}.

Definition clear_just_generated (m : message) : message :=
  {| role := role m; content := content m; from_voice := from_voice m;
     audio := audio m; just_generated := Some false |}.

(** [st.session_state], once the defaults at the top of the script
    are in. *)
Record session_state : Type := mkState {
  conversation_id : option string;
  messages : list message;
  voice_enabled : bool;
  selected_voice : string;
  auto_play : bool;
  transcription_language : option string;
  processed_audio_hash : option string;
  audio_input_key : Z;
  input_mode : string
}.

Definition initial_state : session_state :=
  {| conversation_id := None;
     messages := [];
     voice_enabled := true;
     selected_voice := "nova";
     auto_play := true;
     transcription_language := Some "en";
     processed_audio_hash := None;
     audio_input_key := 0;
     input_mode := "voice" |}.

Definition set_conversation_id (v : option string) (s : session_state) :=
  mkState v (messages s) (voice_enabled s) (selected_voice s) (auto_play s)
    (transcription_language s) (processed_audio_hash s) (audio_input_key s)
    (input_mode s).
Definition set_messages (v : list message) (s : session_state) :=
  mkState (conversation_id s) v (voice_enabled s) (selected_voice s)
    (auto_play s) (transcription_language s) (processed_audio_hash s)
    (audio_input_key s) (input_mode s).
Definition set_voice_enabled (v : bool) (s : session_state) :=
  mkState (conversation_id s) (messages s) v (selected_voice s) (auto_play s)
    (transcription_language s) (processed_audio_hash s) (audio_input_key s)
    (input_mode s).
Definition set_selected_voice (v : string) (s : session_state) :=
  mkState (conversation_id s) (messages s) (voice_enabled s) v (auto_play s)
    (transcription_language s) (processed_audio_hash s) (audio_input_key s)
    (input_mode s).
Definition set_auto_play (v : bool) (s : session_state) :=
  mkState (conversation_id s) (messages s) (voice_enabled s)
    (selected_voice s) v (transcription_language s) (processed_audio_hash s)
    (audio_input_key s) (input_mode s).
Definition set_transcription_language (v : option string)
    (s : session_state) :=
  mkState (conversation_id s) (messages s) (voice_enabled s)
    (selected_voice s) (auto_play s) v (processed_audio_hash s)
    (audio_input_key s) (input_mode s).
Definition set_processed_audio_hash (v : option string)
    (s : session_state) :=
  mkState (conversation_id s) (messages s) (voice_enabled s)
    (selected_voice s) (auto_play s) (transcription_language s) v
    (audio_input_key s) (input_mode s).
Definition set_audio_input_key (v : Z) (s : session_state) :=
  mkState (conversation_id s) (messages s) (voice_enabled s)
    (selected_voice s) (auto_play s) (transcription_language s)
    (processed_audio_hash s) v (input_mode s).
Definition set_input_mode (v : string) (s : session_state) :=
  mkState (conversation_id s) (messages s) (voice_enabled s)
    (selected_voice s) (auto_play s) (transcription_language s)
    (processed_audio_hash s) (audio_input_key s) v.

(** The keys of [LANGUAGE_OPTIONS], which are all the language select
    box can return. *)
Inductive language_name : Type :=
  English | Polish | German | Spanish | French | Auto_detect.

Definition LANGUAGE_OPTIONS (name : language_name) : option string :=
  match name with
  | English => Some "en"
  | Polish => Some "pl"
  | German => Some "de"
  | Spanish => Some "es"
  | French => Some "fr"
  | Auto_detect => None
  end.

(** What the script puts on the page.  Titles, dividers, the style
    sheet and the widgets themselves are left out; an audio player
    carries the index of the message it belongs to. *)
Inductive ui : Type :=
  | Markdown (html : string)
  | AudioPlayer (idx : nat) (data : bytes) (autoplay : bool)
  | Spinner (text : string)
  | Warning (text : string)
  | Error (text : string).

(** How a piece of the script ends: normally, in [st.rerun()] (a
    control exception that [except Exception] does not catch), or in
    an exception. *)
Inductive outcome (A : Type) : Type :=
  | Done (a : A)
  | Rerun
  | Raised (e : exn).
Arguments Done {A} a.
Arguments Rerun {A}.
Arguments Raised {A} e.

(** A piece of the script: it reads and writes the session state and
    adds to the page. *)
Definition script (A : Type) : Type :=
  session_state -> list ui -> outcome A * session_state * list ui.

Definition ret {A} (a : A) : script A := fun s page => (Done a, s, page).

Definition bind {A B} (m : script A) (f : A -> script B) : script B :=
  fun s page =>
    match m s page with
    | (Done a, s', page') => f a s' page'
    | (Rerun, s', page') => (Rerun, s', page')
    | (Raised e, s', page') => (Raised e, s', page')
    end.

Definition read : script session_state := fun s page => (Done s, s, page).

Definition update (f : session_state -> session_state) : script unit :=
  fun s page => (Done tt, f s, page).

Definition show (e : ui) : script unit :=
  fun s page => (Done tt, s, page ++ [e]).

Definition st_rerun {A} : script A := fun s page => (Rerun, s, page).

(** An exception leaving a piece of the script. *)
Definition throw {A} (e : exn) : script A := fun s page => (Raised e, s, page).

Definition try_except (body : script unit) (handler : exn -> script unit)
    : script unit :=
  fun s page =>
    match body s page with
    | (Raised e, s', page') => handler e s' page'
    | r => r
    end.

#[global] Instance script_ret : MRet script := @ret.
#[global] Instance script_bind : MBind script :=
  fun A B f m => bind m f.

(** [with st.spinner(text): body] *)
Definition with_spinner {A} (text : string) (body : script A) : script A :=
  show (Spinner text) ;; body.

(** *** The sidebar *)

(** The values the widgets hand to one run of the script. *)
Record widgets : Type := mkWidgets {
  enable_voice_output : bool;          (* st.toggle *)
  ai_voice : string;                   (* st.selectbox *)
  auto_play_responses : bool;          (* st.toggle *)
  input_language : language_name;      (* st.selectbox *)
  new_conversation_clicked : bool;     (* st.button *)
  voice_clicked : bool;                (* st.button *)
  text_clicked : bool;                 (* st.button *)
  recorded : option bytes;             (* st.audio_input, already read *)
  typed : option string                (* st.chat_input *)
}.

(** The body of [if st.button("New Conversation")], before the rerun. *)
Definition new_conversation (s : session_state) : session_state :=
  let s := set_conversation_id None s in
  let s := set_messages [] s in
  let s := set_processed_audio_hash None s in
  set_audio_input_key (audio_input_key s + 1) s.

Section Script.

(** [AVAILABLE_VOICES.index], [AVAILABLE_VOICES] being a constant of
    W4_voice_utils, which is not at hand: the position of a voice that
    is on offer, a [ValueError] for any other.  The voice select box
    offers the same list. *)
Variable AVAILABLE_VOICES_index : string -> result nat.

(** The sidebar.  The stored voice is looked up to place the voice
    select box (line 122) before the box is read; the language box is
    placed by a lookup that cannot fail. *)
Definition sidebar (w : widgets) : script unit :=
  update (set_voice_enabled (enable_voice_output w)) ;;
  s ← read;
  (if voice_enabled s then
     match AVAILABLE_VOICES_index (selected_voice s) with
     | Raise e => throw e
     | Ok _ =>
       update (set_selected_voice (ai_voice w)) ;;
       update (set_auto_play (auto_play_responses w))
     end
   else mret tt) ;;
  let selected_lang_name := input_language w in
  update (set_transcription_language (LANGUAGE_OPTIONS selected_lang_name)) ;;
  if new_conversation_clicked w then
    update new_conversation ;; st_rerun
  else mret tt.

(** *** The chat history *)

Definition dq : string := String (Ascii.ascii_of_nat 34) EmptyString.

Definition bubble (class content : string) : string :=
  "<div class=" +:+ dq +:+ "message-container" +:+ dq +:+ "><div class="
    +:+ dq +:+ class +:+ dq +:+ ">" +:+ content +:+ "</div></div>".

Definition voice_indicator : string :=
  " <span class=" +:+ dq +:+ "voice-indicator" +:+ dq +:+ ">🎤</span>".

(** [bool(message.get("audio"))]: there are bytes, and not none of them. *)
Definition has_audio (m : message) : bool :=
  match audio m with
  | Some (_ :: _) => true
  | _ => false
  end.

(** One turn of the [for idx, message in enumerate(...)] loop; [len]
    is [len(st.session_state.messages)].  The message comes back as
    the loop leaves it in the list. *)
Definition display_message (s : session_state) (len idx : nat)
    (m : message) : message * list ui :=
  if bool_decide (role m = "human") then
    let voice_tag :=
      if default false (from_voice m) then voice_indicator else EmptyString in
    (m, [Markdown (bubble "user-message" (content m +:+ voice_tag))])
  else
    let shown := Markdown (bubble "ai-message" (content m)) in
    if has_audio m && voice_enabled s then
      let is_latest := Z.of_nat idx =? Z.of_nat len - 1 in
      let should_autoplay :=
        auto_play s && is_latest && default false (just_generated m) in
      (if should_autoplay then clear_just_generated m else m,
       [shown; AudioPlayer idx (default [] (audio m)) should_autoplay])
    else (m, [shown]).

Fixpoint display_from (s : session_state) (len idx : nat)
    (ms : list message) : list message * list ui :=
  match ms with
  | [] => ([], [])
  | m :: rest =>
    let '(m', shown) := display_message s len idx m in
    let '(rest', shown') := display_from s len (S idx) rest in
    (m' :: rest', shown ++ shown')
  end.

Definition display_chat_history : script unit :=
  fun s page =>
    let '(ms, shown) := display_from s (length (messages s)) 0 (messages s) in
    (Done tt, set_messages ms s, page ++ shown).

(** *** The input section *)

Definition mode_toggle (w : widgets) : script unit :=
  (if voice_clicked w then
     update (set_input_mode "voice") ;; st_rerun
   else mret tt) ;;
  if text_clicked w then
    update (set_input_mode "text") ;; st_rerun
  else mret tt.

(** [==] between two values that are each a [str] or [None]. *)
Definition same_hash (a b : option string) : bool := bool_decide (a = b).

(** [compute_audio_hash]: the body is [pass], so the call gives [None]. *)
Definition compute_audio_hash (audio_bytes : bytes) : option string := None.

(** The dict [process_user_input] appends for the user. *)
Definition human_turn (user_text : string) (from_voice : bool) : message :=
  {| role := "human"; content := user_text;
     from_voice := Some from_voice;
     audio := None; just_generated := None |}.

(** [process_user_input]: TODO 2 leaves [ai_text] a constant, TODO 3
    and TODO 4 are [pass]; no function of another module is called. *)
Definition process_user_input (user_text : string) (from_voice : bool)
    : script unit :=
  update (fun s =>
    set_messages (messages s ++ [human_turn user_text from_voice]) s) ;;
  ai_text ← with_spinner "Thinking..."
              (mret "TODO: Implement chatbot response") ;
  let audio_data : option bytes := None in
  s ← read;
  (if voice_enabled s then
     with_spinner "Generating voice response..." (mret tt)
   else mret tt) ;;
  mret tt.

(** Lines 327-340: what follows once [transcript] is bound. *)
Definition handle_transcript (transcript : string)
    (audio_hash : option string) : script unit :=
  if negb (bool_decide (transcript = EmptyString)) then
    update (set_processed_audio_hash audio_hash) ;;
    update (fun s => set_audio_input_key (audio_input_key s + 1) s) ;;
    process_user_input transcript true ;;
    st_rerun
  else
    show (Warning "Could not transcribe audio. Please try again.").

(** [if audio_input is not None: ...], [audio_bytes] being what
    [audio_input.read()] gave. *)
Definition process_voice_input (audio_bytes : bytes) : script unit :=
  let audio_hash := compute_audio_hash audio_bytes in
  s ← read;
  if negb (same_hash audio_hash (processed_audio_hash s)) then
    with_spinner "Transcribing your voice..."
      (try_except
         (let transcript := EmptyString in            (* TODO 5: placeholder *)
          handle_transcript transcript audio_hash)
         (fun e =>
            show (Error ("Error processing voice: " +:+ exn_text e))))
  else mret tt.

(** [if text_input: ...] *)
Definition process_text_input (text_input : string) : script unit :=
  process_user_input text_input false ;;
  st_rerun.

Definition input_section (w : widgets) : script unit :=
  mode_toggle w ;;
  s ← read;
  let audio_input :=
    if bool_decide (input_mode s = "voice") then recorded w else None in
  let text_input :=
    if bool_decide (input_mode s = "voice") then None else typed w in
  (match audio_input with
   | Some audio_bytes => process_voice_input audio_bytes
   | None => mret tt
   end) ;;
  match text_input with
  | Some text => if negb (bool_decide (text = EmptyString)) then
                   process_text_input text
                 else mret tt
  | None => mret tt
  end.

(** *** One run of the script, and a session of runs *)

Definition main (w : widgets) : script unit :=
  sidebar w ;;
  display_chat_history ;;
  input_section w.

(** The state a run leaves and the page it drew. *)
Definition run (w : widgets) (s : session_state)
    : session_state * list ui :=
  let '(_, s', page) := main w s [] in (s', page).

(** Runs one after the other, each on the state the last one left;
    the pages come back in order. *)
Fixpoint session (ws : list widgets) (s : session_state)
    : session_state * list (list ui) :=
  match ws with
  | [] => (s, [])
  | w :: rest =>
    let '(s', page) := run w s in
    let '(s'', pages) := session rest s' in
    (s'', page :: pages)
  end.

End Script.

(** The audio players among what was drawn that start by themselves,
    by message index. *)
Definition autoplayed (page : list ui) : list nat :=
  omap (fun e => match e with
                 | AudioPlayer idx _ true => Some idx
                 | _ => None
                 end) page.

(** The message at index [i] has its [just_generated] set. *)
Definition armed (ms : list message) (i : nat) : Prop :=
  exists m : message, ms !! i = Some m /\ just_generated m = Some true.

(** Going from [s] to [s'] sets no flag: what is armed after was
    armed before, at the same index. *)
Definition fades (s s' : session_state) : Prop :=
  forall i : nat, armed (messages s') i -> armed (messages s) i.

(** A piece of script that only adds to the page, sets no flag, and
    starts playback only for messages whose flag is set, once each,
    clearing the flag as it does. *)
Definition plays_once {A} (m : script A) : Prop :=
  forall (s : session_state) (page : list ui),
    exists (o : outcome A) (s' : session_state) (drawn : list ui),
      m s page = (o, s', page ++ drawn)
      /\ fades s s'
      /\ NoDup (autoplayed drawn)
      /\ forall i : nat, i ∈ autoplayed drawn ->
            armed (messages s) i /\ ~ armed (messages s') i.

(** A piece of script that ends normally or in a rerun, and shows no
    error box. *)
Definition calm {A} (m : script A) : Prop :=
  forall (s : session_state) (page : list ui),
    (forall text, Error text ∉ page) ->
    (forall e, (m s page).1.1 <> Raised e)
    /\ forall text, Error text ∉ (m s page).2.

(** Widget values for the examples: nothing touched, a click, a typed
    line, a recording. *)
Definition idle : widgets :=
  {| enable_voice_output := true; ai_voice := "nova";
     auto_play_responses := true; input_language := English;
     new_conversation_clicked := false; voice_clicked := false;
     text_clicked := false; recorded := None; typed := None |}.

Definition click_new_conversation : widgets :=
  {| enable_voice_output := true; ai_voice := "nova";
     auto_play_responses := true; input_language := English;
     new_conversation_clicked := true; voice_clicked := false;
     text_clicked := false; recorded := None; typed := None |}.

Definition click_text : widgets :=
  {| enable_voice_output := true; ai_voice := "nova";
     auto_play_responses := true; input_language := English;
     new_conversation_clicked := false; voice_clicked := false;
     text_clicked := true; recorded := None; typed := None |}.

Definition typing (text : string) : widgets :=
  {| enable_voice_output := true; ai_voice := "nova";
     auto_play_responses := true; input_language := English;
     new_conversation_clicked := false; voice_clicked := false;
     text_clicked := false; recorded := None; typed := Some text |}.

Definition recording (clip : bytes) : widgets :=
  {| enable_voice_output := true; ai_voice := "nova";
     auto_play_responses := true; input_language := English;
     new_conversation_clicked := false; voice_clicked := false;
     text_clicked := false; recorded := Some clip; typed := None |}.

(** *** The session dictionary and its defaults (lines 68-94) *)

(** The values the script keeps in [st.session_state]. *)
Inductive value : Type :=
  | VNone
  | VBool (b : bool)
  | VStr (text : string)
  | VInt (n : Z)
  | VMessages (ms : list message).

(** [if key not in st.session_state: st.session_state[key] = v] *)
Definition set_default (key : string) (v : value) (d : gmap string value)
    : gmap string value :=
  match d !! key with
  | Some _ => d
  | None => <[key := v]> d
  end.

Definition initialize (d : gmap string value) : gmap string value :=
  let d := set_default "conversation_id" VNone d in
  let d := set_default "messages" (VMessages []) d in
  let d := set_default "voice_enabled" (VBool true) d in
  let d := set_default "selected_voice" (VStr "nova") d in
  let d := set_default "auto_play" (VBool true) d in
  let d := set_default "transcription_language" (VStr "en") d in
  let d := set_default "processed_audio_hash" VNone d in
  let d := set_default "audio_input_key" (VInt 0) d in
  set_default "input_mode" (VStr "voice") d.

Definition session_keys : list string :=
  [ "conversation_id"; "messages"; "voice_enabled"; "selected_voice";
    "auto_play"; "transcription_language"; "processed_audio_hash";
    "audio_input_key"; "input_mode" ].

(** Reading a dictionary as the record the rest of the script is
    written against; [None] when a key is missing or holds a value of
    another kind. *)
Definition as_optional_string (v : value) : option (option string) :=
  match v with
  | VNone => Some None
  | VStr text => Some (Some text)
  | _ => None
  end.

Definition as_string (v : value) : option string :=
  match v with VStr text => Some text | _ => None end.

Definition as_bool (v : value) : option bool :=
  match v with VBool b => Some b | _ => None end.

Definition as_int (v : value) : option Z :=
  match v with VInt n => Some n | _ => None end.

Definition as_messages (v : value) : option (list message) :=
  match v with VMessages ms => Some ms | _ => None end.

Definition load (d : gmap string value) : option session_state :=
  cid ← d !! "conversation_id" ≫= as_optional_string;
  ms ← d !! "messages" ≫= as_messages;
  ve ← d !! "voice_enabled" ≫= as_bool;
  sv ← d !! "selected_voice" ≫= as_string;
  ap ← d !! "auto_play" ≫= as_bool;
  tl ← d !! "transcription_language" ≫= as_optional_string;
  pah ← d !! "processed_audio_hash" ≫= as_optional_string;
  key ← d !! "audio_input_key" ≫= as_int;
  im ← d !! "input_mode" ≫= as_string;
  Some (mkState cid ms ve sv ap tl pah key im).

(** *** The language select box (lines 131-139) *)

(** [list(LANGUAGE_OPTIONS.keys())] *)
Definition language_names : list language_name :=
  [English; Polish; German; Spanish; French; Auto_detect].

(** [next((k for k, v in LANGUAGE_OPTIONS.items() if v == code),
    "English")]: the name the box starts on. *)
Definition stored_language_name (code : option string) : language_name :=
  default English
    (head (filter (fun k => LANGUAGE_OPTIONS k = code) language_names)).

(** *** Reading the sidebar and the sessions *)

(** The three settings the sidebar writes before it looks at the
    "New Conversation" button. *)
Definition apply_settings (w : widgets) (s : session_state) : session_state :=
  let s := set_voice_enabled (enable_voice_output w) s in
  let s := if voice_enabled s
           then set_auto_play (auto_play_responses w)
                  (set_selected_voice (ai_voice w) s)
           else s in
  set_transcription_language (LANGUAGE_OPTIONS (input_language w)) s.

(** What of a message the page and the chat function would go by. *)
Definition entry (m : message) : string * string * option bool * option bytes :=
  (role m, content m, from_voice m, audio m).

(** How often "New Conversation" was clicked in a series of runs. *)
Definition resets (ws : list widgets) : Z :=
  Z.of_nat (length (filter (fun w => new_conversation_clicked w = true) ws)).

(** A session state as typing alone can make it from the initial one:
    no conversation id, no stored hash, and typed user turns only. *)
Definition typed_only (s : session_state) : Prop :=
  conversation_id s = None
  /\ processed_audio_hash s = None
  /\ Forall (fun m => exists text, m = human_turn text false) (messages s).

(** What a run can be seen to do in its input section: [switched] is
    a click on a mode button, [typed_turn] a typed line that became a
    user turn, [retry] a recording that got the warning, [untouched]
    nothing at all, which is what is left. *)
Inductive input_outcome (w : widgets) (s : session_state)
    : outcome unit -> session_state -> list ui -> Prop :=
  | switched (mode : string) :
      (voice_clicked w = true /\ mode = "voice")
      \/ (voice_clicked w = false /\ text_clicked w = true /\ mode = "text") ->
      input_outcome w s Rerun (set_input_mode mode s) []
  | typed_turn (text : string) :
      voice_clicked w = false -> text_clicked w = false ->
      input_mode s <> "voice" -> typed w = Some text -> text <> EmptyString ->
      input_outcome w s Rerun
        (set_messages
           (messages s
            ++ [{| role := "human"; content := text;
                   from_voice := Some false;
                   audio := None; just_generated := None |}]) s)
        (Spinner "Thinking..."
         :: (if voice_enabled s
             then [Spinner "Generating voice response..."] else []))
  | retry (clip : bytes) :
      voice_clicked w = false -> text_clicked w = false ->
      input_mode s = "voice" -> recorded w = Some clip ->
      compute_audio_hash clip <> processed_audio_hash s ->
      input_outcome w s (Done tt) s
        [Spinner "Transcribing your voice...";
         Warning "Could not transcribe audio. Please try again."]
  | untouched :
      voice_clicked w = false -> text_clicked w = false ->
      (input_mode s = "voice" ->
       recorded w = None
       \/ exists clip, recorded w = Some clip
            /\ compute_audio_hash clip = processed_audio_hash s) ->
      (input_mode s <> "voice" ->
       typed w = None \/ typed w = Some EmptyString) ->
      input_outcome w s (Done tt) s [].

(** A bubble, or one of the two spinners of [process_user_input]. *)
Definition plain (e : ui) : Prop :=
  (exists html, e = Markdown html)
  \/ e = Spinner "Thinking..."
  \/ e = Spinner "Generating voice response...".

(** The bubbles among what was drawn, in order. *)
Definition bubbles (page : list ui) : list string :=
  omap (fun e => match e with Markdown html => Some html | _ => None end) page.

(** The sidebar gets past the lookup of line 122: voice output is off,
    or the stored voice is on offer. *)
Definition voice_found (index : string -> result nat) (w : widgets)
    (s : session_state) : Prop :=
  enable_voice_output w = false
  \/ exists i : nat, index (selected_voice s) = Ok i.

(** [voices.index] for a given list, to have something to run the
    script with; the text of the [ValueError] is that of a voice name
    made of letters, whose [repr] is the name between single quotes. *)
Definition index_in (voices : list string) (v : string) : result nat :=
  match list_find (fun x => x = v) voices with
  | Some (i, _) => Ok i
  | None => Raise (Exception ("'" +:+ v +:+ "' is not in list"))
  end.


End VoiceChat.

(** * Properties of the realtime bridge *)
Module RealtimeFacts.
Import Realtime.

Lemma played_app (es es' : list effect) :
  played (es ++ es') = played es ++ played es'.
Proof. apply omap_app. Qed.

Lemma emit_print_silent (r : receiver) (es : list effect) :
  played es = [] -> silent r -> silent (emit es r).
Proof.
  intros Hes [Hbuf Hout]. split; [exact Hbuf|].
  cbn. rewrite played_app, Hout, Hes. reflexivity.
Qed.

Lemma receive_error_silent (text : string) (r : receiver) :
  silent r -> silent (receive_error text r).
Proof.
  intros H. unfold receive_error.
  destruct (is_running (agent r)); [|exact H].
  apply emit_print_silent; [reflexivity|exact H].
Qed.

Lemma dispatch_silent (event : json) (r r' : receiver) :
  dispatch event r = Ok r' -> silent r -> silent r'.
Proof.
  intros Hd Hs. pose proof Hs as [Hbuf Hout].
  unfold dispatch, print_value in Hd.
  repeat (case_match; simplify_eq; try discriminate);
    try (apply emit_print_silent; [reflexivity|assumption]);
    try assumption.
Qed.

Lemma receive_loop_silent (inbox : list received) :
  forall r, silent r -> silent (receive_loop inbox r).
Proof.
  induction inbox as [|m rest IH]; intros r Hs; cbn; [exact Hs|].
  destruct (is_running (agent r)) eqn:Hrun; cbn; [|exact Hs].
  destruct m as [| |text|event].
  - apply IH, Hs.
  - apply emit_print_silent; [reflexivity|exact Hs].
  - apply IH, receive_error_silent, Hs.
  - destruct (dispatch event r) as [r'|e] eqn:Hd.
    + apply IH. eapply dispatch_silent; eassumption.
    + apply IH, receive_error_silent, Hs.
Qed.

(** C1, as the file stands.  The branch for [response.audio.delta] is
    the [pass] under TODO 4, so nothing ever reaches [audio_buffer];
    [response.audio.done] then finds it empty and does not call
    [play_audio].  On a delta followed by done there is no playback
    call at all, where one call with the decoded bytes is wanted; and
    the same holds of every inbound sequence. *)
Theorem delta_then_done_plays_nothing :
  played (output (receive_messages
                    [Message (audio_delta "AAAA"); Message audio_done]
                    started)) = []
  /\ forall (inbox : list received) (a : RealtimeVoiceAgent),
       played (output (receive_messages inbox a)) = []
       /\ audio_buffer (receive_messages inbox a) = [].
Proof.
  assert (Hall : forall inbox a, silent (receive_messages inbox a)).
  { intros inbox a. apply receive_loop_silent. split; reflexivity. }
  split.
  - apply Hall.
  - intros inbox a. destruct (Hall inbox a) as [Hbuf Hout].
    split; assumption.
Qed.

(** Frames handed to the callback of a fresh agent are all queued. *)
Lemma capture_unbounded (frames : list bytes) :
  forall a : RealtimeVoiceAgent,
    Queue.maxsize (audio_queue a) = 0 ->
    Queue.maxsize (audio_queue (capture frames a)) = 0
    /\ Queue.items (audio_queue (capture frames a))
       = Queue.items (audio_queue a) ++ frames.
Proof.
  induction frames as [|f rest IH]; intros a Hmax; cbn [capture].
  - split; [exact Hmax|]. rewrite app_nil_r. reflexivity.
  - unfold audio_callback, Queue.put_nowait, Queue.full.
    rewrite Hmax. cbn.
    destruct (IH (set_audio_queue
                    {| Queue.maxsize := 0;
                       Queue.items := Queue.items (audio_queue a) ++ [f] |}
                    a) eq_refl) as [Hm Hi].
    split; [exact Hm|]. rewrite Hi. cbn. rewrite <- app_assoc.
    reflexivity.
Qed.

(** C3, as the file stands.  The callback is written for a queue that
    can be full ([except asyncio.QueueFull: pass], "Drop frame if queue
    is full"), but [__init__] builds the queue with [asyncio.Queue()]
    and no [maxsize], so it has no bound and that branch is never
    taken: after 1001 callbacks on a fresh agent the queue holds 1001
    frames and is still not full, and no number bounds what it can
    hold.  The claim wants a bounded queue that drops frames when
    full. *)
Theorem send_queue_not_bounded :
  Queue.qsize (audio_queue (capture (replicate 1001 []) __init__)) = 1001
  /\ Queue.full (audio_queue (capture (replicate 1001 []) __init__)) = false
  /\ ~ bounded_send_queue __init__.
Proof.
  split; [vm_compute; reflexivity|].
  split; [vm_compute; reflexivity|].
  intros [n Hn].
  specialize (Hn (replicate (Z.to_nat (Z.max n 0) + 1) [])).
  destruct (capture_unbounded (replicate (Z.to_nat (Z.max n 0) + 1) [])
              __init__ eq_refl) as [_ Hi].
  unfold Queue.qsize in Hn. rewrite Hi in Hn. cbn in Hn.
  rewrite length_replicate in Hn. lia.
Qed.

End RealtimeFacts.

(** * Properties of the voice chat UI *)
Module VoiceChatFacts.
Import VoiceChat.

(** Open the plumbing of [script], leaving the state functions. *)
Ltac open_script :=
  cbv beta iota delta
    [mbind mret script_bind script_ret bind ret read update show
     st_rerun with_spinner try_except].

(** The voice handler never writes the session state, as it stands:
    either the guard fails, or the placeholder transcript is empty. *)
Lemma process_voice_input_state
    (clip : bytes) (s : session_state) (page : list ui) :
  (process_voice_input clip s page).1.2 = s.
Proof.
  unfold process_voice_input, handle_transcript. open_script.
  destruct (same_hash (compute_audio_hash clip) (processed_audio_hash s));
    reflexivity.
Qed.




(** C7.  With an empty transcript the branch taken is the warning:
    "Could not transcribe audio. Please try again." is shown and the
    session state is untouched (transcript list, conversation id,
    stored hash and widget key among it); the "Thinking..." spinner
    of the chat call is not reached.  So it is for the code from line
    327 on, and for the whole voice handler whenever it gets as far
    as transcribing. *)
Theorem empty_transcript_mutates_nothing :
  (forall (audio_hash : option string) (s : session_state)
          (page : list ui),
     handle_transcript EmptyString audio_hash s page
     = (Done tt, s,
        page ++ [Warning "Could not transcribe audio. Please try again."]))
  /\ forall (clip : bytes) (s : session_state) (page : list ui),
       compute_audio_hash clip <> processed_audio_hash s ->
       process_voice_input clip s page
       = (Done tt, s,
          page ++ [Spinner "Transcribing your voice...";
                   Warning "Could not transcribe audio. Please try again."]).
Proof.
  split.
  - intros audio_hash s page. reflexivity.
  - intros clip s page Hnew. unfold process_voice_input, handle_transcript.
    open_script.
    unfold same_hash. rewrite bool_decide_eq_false_2 by exact Hnew.
    rewrite bool_decide_eq_true_2 by reflexivity. cbn.
    rewrite <- app_assoc. reflexivity.
Qed.

Lemma empty_transcript_mutates_nothing_witness :
  process_voice_input [x52; x49; x46; x46]
    (set_processed_audio_hash (Some "9e107d9d372bb6826bd81d3542a419d6")
       initial_state) []
  = (Done tt,
     set_processed_audio_hash (Some "9e107d9d372bb6826bd81d3542a419d6")
       initial_state,
     [Spinner "Transcribing your voice...";
      Warning "Could not transcribe audio. Please try again."]).
Proof.
  apply (proj2 empty_transcript_mutates_nothing [x52; x49; x46; x46]
           (set_processed_audio_hash
              (Some "9e107d9d372bb6826bd81d3542a419d6") initial_state) []).
  vm_compute. discriminate.
Defined.

(** C9.  Typed input is never compared with anything: in text mode a
    submitted, non-empty line always goes to [process_user_input],
    which appends a turn with role "human", the line as content and no
    voice mark, and reruns, whatever the transcript holds, a last entry
    with the same content included; the stored audio hash plays no
    part and nothing else in the session state is written. *)
Theorem typed_text_is_never_deduplicated
    (w : widgets) (s : session_state) (page : list ui) (text : string) :
  input_mode s = "text" ->
  voice_clicked w = false ->
  text_clicked w = false ->
  typed w = Some text ->
  text <> EmptyString ->
  exists page' : list ui,
    input_section w s page
    = (Rerun,
       set_messages
         (messages s
          ++ [{| role := "human"; content := text;
                 from_voice := Some false;
                 audio := None; just_generated := None |}]) s,
       page')
    /\ Spinner "Thinking..." ∈ page'.
Proof.
  intros Hmode Hv Ht Htyped Htext.
  unfold input_section, mode_toggle, process_text_input,
    process_user_input.
  rewrite Hv, Ht, Htyped. open_script. rewrite Hmode.
  rewrite (bool_decide_eq_false_2 ("text" = "voice")) by discriminate.
  rewrite (bool_decide_eq_false_2 (text = EmptyString)) by exact Htext. cbn.
  destruct (voice_enabled s); cbn; eexists; (split; [reflexivity|]);
    set_solver.
Qed.

Lemma typed_text_is_never_deduplicated_witness :
  exists page' : list ui,
    input_section (typing "hello")
      (set_input_mode "text"
         (set_messages [human_turn "hello" false] initial_state)) []
    = (Rerun,
       set_messages
         (messages (set_input_mode "text"
            (set_messages [human_turn "hello" false] initial_state))
          ++ [{| role := "human"; content := "hello";
                 from_voice := Some false;
                 audio := None; just_generated := None |}])
         (set_input_mode "text"
            (set_messages [human_turn "hello" false] initial_state)),
       page')
    /\ Spinner "Thinking..." ∈ page'.
Proof.
  apply (typed_text_is_never_deduplicated (typing "hello")
           (set_input_mode "text"
              (set_messages [human_turn "hello" false] initial_state))
           [] "hello");
    [reflexivity | reflexivity | reflexivity | reflexivity | discriminate].
Defined.

(** C10.  The body of the "New Conversation" button writes the
    conversation id, the transcript list, the stored hash and the
    widget key, and nothing else: [voice_enabled], [selected_voice],
    [auto_play], [transcription_language] and [input_mode] are as
    before, and the page is not drawn on. *)
Theorem new_conversation_keeps_settings (s : session_state) :
  voice_enabled (new_conversation s) = voice_enabled s
  /\ selected_voice (new_conversation s) = selected_voice s
  /\ auto_play (new_conversation s) = auto_play s
  /\ transcription_language (new_conversation s) = transcription_language s
  /\ input_mode (new_conversation s) = input_mode s
  /\ forall page : list ui,
       (update new_conversation ;; st_rerun (A:=unit)) s page
       = (Rerun, new_conversation s, page).
Proof. repeat split. Qed.

(** What [process_user_input] does, for every input: one entry is
    appended, the user's; the two spinners are shown; the conversation
    id is not written. *)
Lemma process_user_input_appends_one
    (user_text : string) (from_voice : bool)
    (s : session_state) (page : list ui) :
  process_user_input user_text from_voice s page
  = (Done tt,
     set_messages (messages s ++ [human_turn user_text from_voice]) s,
     page ++ Spinner "Thinking..."
          :: (if voice_enabled s
              then [Spinner "Generating voice response..."] else [])).
Proof.
  unfold process_user_input. open_script. cbn.
  destruct (voice_enabled s); cbn; rewrite <- ?app_assoc; reflexivity.
Qed.

(** With a transcript in hand, the voice handler has stored the hash,
    moved the widget key and appended the user's entry by the time it
    reaches the spinner under which the chat call belongs. *)
Lemma handle_transcript_commits_first
    (transcript : string) (audio_hash : option string)
    (s : session_state) (page : list ui) :
  transcript <> EmptyString ->
  handle_transcript transcript audio_hash s page
  = (Rerun,
     set_messages (messages s ++ [human_turn transcript true])
       (set_audio_input_key (audio_input_key s + 1)
          (set_processed_audio_hash audio_hash s)),
     page ++ Spinner "Thinking..."
          :: (if voice_enabled s
              then [Spinner "Generating voice response..."] else [])).
Proof.
  intros Hsome. unfold handle_transcript.
  rewrite bool_decide_eq_false_2 by exact Hsome. cbn [negb].
  open_script. rewrite process_user_input_appends_one. reflexivity.
Qed.

(** *** No run raises *)

Lemma calm_ret {A} (a : A) : calm (mret a).
Proof. intros s page Hp. split; [discriminate|exact Hp]. Qed.

Lemma calm_read : calm read.
Proof. intros s page Hp. split; [discriminate|exact Hp]. Qed.

Lemma calm_rerun {A} : calm (st_rerun (A:=A)).
Proof. intros s page Hp. split; [discriminate|exact Hp]. Qed.

Lemma calm_update (f : session_state -> session_state) : calm (update f).
Proof. intros s page Hp. split; [discriminate|exact Hp]. Qed.

Lemma calm_show (e : ui) : (forall text, e <> Error text) -> calm (show e).
Proof.
  intros He s page Hp. split; [discriminate|].
  intros text Hin. cbn in Hin. apply elem_of_app in Hin as [Hin|Hin].
  - exact (Hp text Hin).
  - apply list_elem_of_singleton in Hin. exact (He text (eq_sym Hin)).
Qed.

Lemma calm_display : calm display_chat_history.
Proof.
  intros s page Hp. unfold display_chat_history.
  assert (Hone : forall len idx m text,
             Error text ∉ (display_message s len idx m).2).
  { intros len idx m text. unfold display_message.
    repeat case_match; cbn; intros Hin;
      repeat (apply elem_of_cons in Hin as [Hin|Hin]; [discriminate|]);
      inversion Hin. }
  assert (Hshown : forall len ms idx text,
             Error text ∉ (display_from s len idx ms).2).
  { intros len ms. induction ms as [|m rest IH]; intros idx text;
      cbn [display_from]; [cbn; apply not_elem_of_nil|].
    specialize (IH (S idx) text). specialize (Hone len idx m text).
    destruct (display_from s len (S idx) rest) as [rest' shown'].
    destruct (display_message s len idx m) as [m' shown].
    cbn [fst snd] in *. intros Hin.
    apply elem_of_app in Hin as [Hin|Hin]; [exact (Hone Hin)|exact (IH Hin)]. }
  specialize (Hshown (length (messages s)) (messages s) 0%nat).
  destruct (display_from s (length (messages s)) 0 (messages s))
    as [ms' shown].
  cbn in *. split; [discriminate|].
  intros text Hin. apply elem_of_app in Hin as [Hin|Hin].
  - exact (Hp text Hin).
  - exact (Hshown text Hin).
Qed.

Lemma calm_bind {A B} (m : script A) (f : A -> script B) :
  calm m -> (forall a, calm (f a)) -> calm (m ≫= f).
Proof.
  intros Hm Hf s page Hp. destruct (Hm s page Hp) as [Ho Hpage].
  unfold mbind, script_bind, bind.
  destruct (m s page) as [[o s1] p1]. cbn in Ho, Hpage.
  destruct o as [a| |e].
  - apply Hf, Hpage.
  - split; [discriminate|exact Hpage].
  - destruct (Ho e eq_refl).
Qed.

(** A calm body never reaches its [except] clause. *)
Lemma calm_try (body : script unit) (handler : exn -> script unit) :
  calm body -> calm (try_except body handler).
Proof.
  intros Hb s page Hp. destruct (Hb s page Hp) as [Ho Hpage].
  unfold try_except.
  destruct (body s page) as [[o s1] p1]. cbn in Ho, Hpage.
  destruct o as [a| |e].
  - split; [discriminate|exact Hpage].
  - split; [discriminate|exact Hpage].
  - destruct (Ho e eq_refl).
Qed.

Ltac calm_step :=
  first
    [ apply calm_bind; [|intros ?]
    | apply calm_ret
    | apply calm_read
    | apply calm_rerun
    | apply calm_display
    | apply calm_update
    | apply calm_show; discriminate
    | apply calm_try
    | match goal with
      | |- calm (if ?b then _ else _) => destruct b
      | |- calm (match ?o with Some _ => _ | None => _ end) => destruct o
      end ].

(** *** Autoplay *)

Lemma autoplayed_app (page page' : list ui) :
  autoplayed (page ++ page') = autoplayed page ++ autoplayed page'.
Proof. apply omap_app. Qed.

Lemma fades_same_messages (s s' : session_state) :
  messages s' = messages s -> fades s s'.
Proof. intros Heq i. rewrite Heq. trivial. Qed.

Lemma fades_trans (s1 s2 s3 : session_state) :
  fades s1 s2 -> fades s2 s3 -> fades s1 s3.
Proof. intros H12 H23 i Hi. apply H12, H23, Hi. Qed.

Lemma fades_new_conversation (s : session_state) :
  fades s (new_conversation s).
Proof. intros i (m & Hm & _). cbn in Hm. discriminate. Qed.

Lemma fades_human_turn (s : session_state) (text : string) (v : bool) :
  fades s (set_messages (messages s ++ [human_turn text v]) s).
Proof.
  intros i (m & Hm & Hflag). cbn in Hm.
  apply lookup_app_Some in Hm as [Hm|[_ Hm]].
  - exists m. split; assumption.
  - apply list_lookup_singleton_Some in Hm as [_ <-]. discriminate.
Qed.

(** One message: either nothing starts and the message is as it was,
    or its player starts, its flag was set and is now cleared. *)
Lemma display_message_cases (s : session_state) (len idx : nat)
    (m : message) :
  ((display_message s len idx m).1 = m
   /\ autoplayed (display_message s len idx m).2 = [])
  \/ ((display_message s len idx m).1 = clear_just_generated m
      /\ autoplayed (display_message s len idx m).2 = [idx]
      /\ just_generated m = Some true).
Proof.
  unfold display_message.
  destruct (bool_decide (role m = "human")); [left; split; reflexivity|].
  destruct (has_audio m && voice_enabled s); [|left; split; reflexivity].
  destruct (auto_play s); cbn; [|left; split; reflexivity].
  destruct (Z.of_nat idx =? Z.of_nat len - 1); cbn;
    [|left; split; reflexivity].
  destruct (just_generated m) as [[|]|]; cbn;
    [right; repeat split | left; split; reflexivity
     | left; split; reflexivity].
Qed.

Lemma display_from_spec (s : session_state) (len : nat)
    (ms : list message) :
  forall idx : nat,
    Forall2 (fun m m' => m' = m \/ m' = clear_just_generated m)
      ms (display_from s len idx ms).1
    /\ NoDup (autoplayed (display_from s len idx ms).2)
    /\ forall i : nat, i ∈ autoplayed (display_from s len idx ms).2 ->
         exists (k : nat) (m : message),
           i = (idx + k)%nat /\ ms !! k = Some m
           /\ just_generated m = Some true
           /\ (display_from s len idx ms).1 !! k
              = Some (clear_just_generated m).
Proof.
  induction ms as [|m rest IH]; intros idx; cbn [display_from].
  - cbn. split; [constructor|]. split; [constructor|].
    intros i Hi. inversion Hi.
  - destruct (IH (S idx)) as (Hall & Hnodup & Hin).
    pose proof (display_message_cases s len idx m) as Hm.
    destruct (display_message s len idx m) as [m' shown].
    destruct (display_from s len (S idx) rest) as [rest' shown'].
    cbn [fst snd] in *. rewrite autoplayed_app.
    assert (Hlater : forall i, i ∈ autoplayed shown' -> (idx < i)%nat).
    { intros i Hi. destruct (Hin i Hi) as (k & _ & -> & _). lia. }
    destruct Hm as [[-> Hnone]|(-> & Hone & Hflag)].
    + rewrite Hnone. cbn [app].
      split; [constructor; [left; reflexivity|exact Hall]|].
      split; [exact Hnodup|].
      intros i Hi. destruct (Hin i Hi) as (k & m0 & -> & Hk & Hf & Hk').
      exists (S k), m0. repeat split; [lia|assumption..].
    + rewrite Hone. cbn [app].
      split; [constructor; [right; reflexivity|exact Hall]|].
      split.
      * constructor; [|exact Hnodup].
        intros Hi. apply Hlater in Hi. lia.
      * intros i Hi. apply elem_of_cons in Hi as [->|Hi].
        -- exists 0%nat, m. repeat split; [lia|assumption].
        -- destruct (Hin i Hi) as (k & m0 & -> & Hk & Hf & Hk').
           exists (S k), m0. repeat split; [lia|assumption..].
Qed.

Lemma cleared_not_armed (ms : list message) (i : nat) (m : message) :
  ms !! i = Some (clear_just_generated m) -> ~ armed ms i.
Proof.
  intros Hi (m' & Hm' & Hflag). rewrite Hi in Hm'.
  injection Hm' as <-. discriminate.
Qed.

(** *** Well-behaved pieces compose *)

Lemma plays_once_quiet {A} (m : script A) :
  (forall s page, exists o s' drawn,
      m s page = (o, s', page ++ drawn)
      /\ fades s s' /\ autoplayed drawn = []) ->
  plays_once m.
Proof.
  intros H s page. destruct (H s page) as (o & s' & drawn & Hm & Hf & Hd).
  exists o, s', drawn. rewrite Hd.
  split; [exact Hm|]. split; [exact Hf|]. split; [constructor|].
  intros i Hi. inversion Hi.
Qed.

Lemma plays_once_ret {A} (a : A) : plays_once (mret a).
Proof.
  apply plays_once_quiet. intros s page. exists (Done a), s, [].
  rewrite app_nil_r.
  split; [reflexivity|]. split; [intros i; trivial|reflexivity].
Qed.

Lemma plays_once_read : plays_once read.
Proof.
  apply plays_once_quiet. intros s page. exists (Done s), s, [].
  rewrite app_nil_r.
  split; [reflexivity|]. split; [intros i; trivial|reflexivity].
Qed.

Lemma plays_once_rerun {A} : plays_once (st_rerun (A:=A)).
Proof.
  apply plays_once_quiet. intros s page. exists Rerun, s, [].
  rewrite app_nil_r.
  split; [reflexivity|]. split; [intros i; trivial|reflexivity].
Qed.

Lemma plays_once_throw {A} (e : exn) : plays_once (throw (A:=A) e).
Proof.
  apply plays_once_quiet. intros s page. exists (Raised e), s, [].
  rewrite app_nil_r.
  split; [reflexivity|]. split; [intros i; trivial|reflexivity].
Qed.

Lemma plays_once_update (f : session_state -> session_state) :
  (forall s, fades s (f s)) -> plays_once (update f).
Proof.
  intros Hf. apply plays_once_quiet. intros s page.
  exists (Done tt), (f s), []. rewrite app_nil_r.
  split; [reflexivity|]. split; [apply Hf|reflexivity].
Qed.

Lemma plays_once_show (e : ui) :
  autoplayed [e] = [] -> plays_once (show e).
Proof.
  intros He. apply plays_once_quiet. intros s page.
  exists (Done tt), s, [e].
  split; [reflexivity|]. split; [intros i; trivial|exact He].
Qed.

Lemma plays_once_bind {A B} (m : script A) (f : A -> script B) :
  plays_once m -> (forall a, plays_once (f a)) -> plays_once (m ≫= f).
Proof.
  intros Hm Hf s page.
  destruct (Hm s page) as (o & s1 & d1 & Em & F1 & N1 & P1).
  unfold mbind, script_bind, bind. rewrite Em.
  destruct o as [a| |e];
    [|exists Rerun, s1, d1; repeat split; (assumption || apply P1; assumption)
     |exists (Raised e), s1, d1; repeat split;
        (assumption || apply P1; assumption)].
  destruct (Hf a s1 (page ++ d1)) as (o2 & s2 & d2 & Ef & F2 & N2 & P2).
  exists o2, s2, (d1 ++ d2).
  rewrite Ef, <- app_assoc, autoplayed_app.
  split; [reflexivity|]. split; [eapply fades_trans; eassumption|].
  split.
  - apply NoDup_app. split; [exact N1|]. split; [|exact N2].
    intros i Hi1 Hi2. apply (proj2 (P1 i Hi1)), (proj1 (P2 i Hi2)).
  - intros i Hi. apply elem_of_app in Hi as [Hi|Hi].
    + split; [apply P1, Hi|].
      intros Harmed. apply (proj2 (P1 i Hi)), F2, Harmed.
    + split; [apply F1, P2, Hi|apply P2, Hi].
Qed.

Lemma plays_once_try (body : script unit) (handler : exn -> script unit) :
  plays_once body -> (forall e, plays_once (handler e)) ->
  plays_once (try_except body handler).
Proof.
  intros Hb Hh s page.
  destruct (Hb s page) as (o & s1 & d1 & Eb & F1 & N1 & P1).
  unfold try_except. rewrite Eb.
  destruct o as [[]| |e];
    [exists (Done tt), s1, d1; repeat split;
       (assumption || apply P1; assumption)
    |exists Rerun, s1, d1; repeat split;
       (assumption || apply P1; assumption)|].
  destruct (Hh e s1 (page ++ d1)) as (o2 & s2 & d2 & Eh & F2 & N2 & P2).
  exists o2, s2, (d1 ++ d2).
  rewrite Eh, <- app_assoc, autoplayed_app.
  split; [reflexivity|]. split; [eapply fades_trans; eassumption|].
  split.
  - apply NoDup_app. split; [exact N1|]. split; [|exact N2].
    intros i Hi1 Hi2. apply (proj2 (P1 i Hi1)), (proj1 (P2 i Hi2)).
  - intros i Hi. apply elem_of_app in Hi as [Hi|Hi].
    + split; [apply P1, Hi|].
      intros Harmed. apply (proj2 (P1 i Hi)), F2, Harmed.
    + split; [apply F1, P2, Hi|apply P2, Hi].
Qed.

Lemma plays_once_display : plays_once display_chat_history.
Proof.
  intros s page. unfold display_chat_history.
  destruct (display_from_spec s (length (messages s)) (messages s) 0)
    as (Hall & Hnodup & Hin).
  destruct (display_from s (length (messages s)) 0 (messages s))
    as [ms' shown].
  cbn [fst snd] in *. exists (Done tt), (set_messages ms' s), shown.
  split; [reflexivity|]. split; [|split; [exact Hnodup|]].
  - intros i (m' & Hm' & Hflag). cbn in Hm'.
    destruct (Forall2_lookup_r _ _ _ _ _ Hall Hm') as (m & Hm & [->| ->]).
    + exists m. split; assumption.
    + discriminate.
  - intros i Hi. destruct (Hin i Hi) as (k & m & -> & Hk & Hflag & Hk').
    cbn. split; [exists m; split; assumption|].
    eapply cleared_not_armed, Hk'.
Qed.

Ltac fades_step :=
  intros ?;
  first [ apply fades_new_conversation
        | apply fades_human_turn
        | apply fades_same_messages; reflexivity ].

Ltac plays_once_step :=
  first
    [ apply plays_once_bind; [|intros ?]
    | apply plays_once_ret
    | apply plays_once_read
    | apply plays_once_rerun
    | apply plays_once_throw
    | apply plays_once_display
    | apply plays_once_show; reflexivity
    | apply plays_once_update; fades_step
    | apply plays_once_try; [|intros ?]
    | match goal with
      | |- plays_once (if ?b then _ else _) => destruct b
      | |- plays_once (match ?o with Some _ => _ | None => _ end) =>
          destruct o
      | |- plays_once (match ?o with Ok _ => _ | Raise _ => _ end) =>
          destruct o
      end ].

Lemma plays_once_process_user_input (text : string) (v : bool) :
  plays_once (process_user_input text v).
Proof. unfold process_user_input, with_spinner. repeat plays_once_step. Qed.

Lemma plays_once_process_voice_input (clip : bytes) :
  plays_once (process_voice_input clip).
Proof.
  unfold process_voice_input, handle_transcript, with_spinner.
  repeat first [apply plays_once_process_user_input | plays_once_step].
Qed.

Lemma plays_once_main (index : string -> result nat) (w : widgets) :
  plays_once (main index w).
Proof.
  unfold main, sidebar, input_section, mode_toggle, process_text_input.
  repeat first [ apply plays_once_process_user_input
               | apply plays_once_process_voice_input
               | plays_once_step ].
Qed.

Lemma run_plays_once (index : string -> result nat)
    (w : widgets) (s : session_state) :
  fades s (run index w s).1
  /\ NoDup (autoplayed (run index w s).2)
  /\ forall i : nat, i ∈ autoplayed (run index w s).2 ->
       armed (messages s) i /\ ~ armed (messages (run index w s).1) i.
Proof.
  unfold run.
  destruct (plays_once_main index w s []) as (o & s' & drawn & -> & H).
  exact H.
Qed.

Lemma session_cons (index : string -> result nat)
    (w : widgets) (ws : list widgets) (s : session_state) :
  session index (w :: ws) s
  = ((session index ws (run index w s).1).1,
     (run index w s).2 :: (session index ws (run index w s).1).2).
Proof.
  cbn [session]. destruct (run index w s) as [s' page]. cbn [fst snd].
  destruct (session index ws s') as [s'' pages]. reflexivity.
Qed.

(** Whatever starts by itself later in a session is armed now. *)
Lemma session_autoplayed_armed (index : string -> result nat)
    (ws : list widgets) :
  forall (s : session_state) (i : nat),
    i ∈ mjoin (autoplayed <$> (session index ws s).2) ->
    armed (messages s) i.
Proof.
  induction ws as [|w rest IH]; intros s i Hi.
  - inversion Hi.
  - rewrite session_cons in Hi. cbn in Hi.
    destruct (run_plays_once index w s) as (Hf & _ & Hp).
    apply elem_of_app in Hi as [Hi|Hi].
    + apply Hp, Hi.
    + apply Hf, IH, Hi.
Qed.

Section Sessions.

(** The lookup of a voice in [AVAILABLE_VOICES], whatever that list
    is. *)
Variable AVAILABLE_VOICES_index : string -> result nat.

Local Abbreviation run := (VoiceChat.run AVAILABLE_VOICES_index).
Local Abbreviation session := (VoiceChat.session AVAILABLE_VOICES_index).

(** C8.  Over a whole session, from any state and with any widget
    input, the indices of the messages whose audio player was started
    by the script form a list without repetition: no turn is
    autoplayed twice.  A run starts playback only for a message whose
    [just_generated] is set, and that message's flag is cleared when
    the run ends; and no run sets the flag of a message: a flag can
    only be set when the message is made. *)
Theorem autoplay_fires_at_most_once :
  (forall (ws : list widgets) (s : session_state),
     NoDup (mjoin (autoplayed <$> (session ws s).2)))
  /\ (forall (w : widgets) (s : session_state) (i : nat),
        i ∈ autoplayed (run w s).2 ->
        armed (messages s) i /\ ~ armed (messages (run w s).1) i)
  /\ (forall (w : widgets) (s : session_state) (i : nat),
        armed (messages (run w s).1) i -> armed (messages s) i)
  /\ forall (s : session_state) (len idx : nat) (m : message),
       autoplayed (display_message s len idx m).2 = [idx] ->
       just_generated m = Some true
       /\ just_generated (display_message s len idx m).1 = Some false.
Proof.
  split; [|split; [|split]].
  - induction ws as [|w rest IH]; intros s; [constructor|].
    rewrite session_cons. cbn.
    destruct (run_plays_once AVAILABLE_VOICES_index w s) as (Hf & Hn & Hp).
    apply NoDup_app. split; [exact Hn|]. split; [|apply IH].
    intros i Hi Hlater.
    apply (proj2 (Hp i Hi)).
    eapply session_autoplayed_armed, Hlater.
  - intros w s i Hi. apply run_plays_once, Hi.
  - intros w s i Hi.
    apply (proj1 (run_plays_once AVAILABLE_VOICES_index w s)), Hi.
  - intros s len idx m Hplay.
    destruct (display_message_cases s len idx m)
      as [[_ Hnone]|(-> & _ & Hflag)].
    + rewrite Hnone in Hplay. discriminate.
    + split; [exact Hflag|reflexivity].
Qed.

End Sessions.

Lemma autoplay_fires_at_most_once_witness :
  armed [ {| role := "ai"; content := "hi there"; from_voice := None;
             audio := Some [x49; x44; x33];
             just_generated := Some true |} ] 0
  /\ ~ armed
       (messages
          (run (index_in ["alloy"; "nova"]) idle
             (set_messages
                [ {| role := "ai"; content := "hi there";
                     from_voice := None; audio := Some [x49; x44; x33];
                     just_generated := Some true |} ]
                initial_state)).1) 0.
Proof.
  apply (proj1 (proj2 (autoplay_fires_at_most_once
                         (index_in ["alloy"; "nova"]))) idle
           (set_messages
              [ {| role := "ai"; content := "hi there";
                   from_voice := None; audio := Some [x49; x44; x33];
                   just_generated := Some true |} ]
              initial_state) 0%nat).
  vm_compute. left.
Defined.

(** *** The sidebar, and runs that get past it *)

Lemma sidebar_unfold (index : string -> result nat)
    (w : widgets) (s : session_state) (page : list ui) :
  sidebar index w s page
  = match (if enable_voice_output w then index (selected_voice s)
           else Ok 0%nat) with
    | Raise e => (Raised e, set_voice_enabled true s, page)
    | Ok _ =>
      if new_conversation_clicked w
      then (Rerun, new_conversation (apply_settings w s), page)
      else (Done tt, apply_settings w s, page)
    end.
Proof.
  unfold sidebar, apply_settings. open_script. cbn.
  destruct (enable_voice_output w); cbn.
  - destruct (index (selected_voice s)); cbn;
      [destruct (new_conversation_clicked w)|]; reflexivity.
  - destruct (new_conversation_clicked w); reflexivity.
Qed.

Lemma main_unfold (index : string -> result nat)
    (w : widgets) (s : session_state) (page : list ui) :
  main index w s page
  = match (if enable_voice_output w then index (selected_voice s)
           else Ok 0%nat) with
    | Raise e => (Raised e, set_voice_enabled true s, page)
    | Ok _ =>
      if new_conversation_clicked w
      then (Rerun, new_conversation (apply_settings w s), page)
      else (display_chat_history ;; input_section w)
             (apply_settings w s) page
    end.
Proof.
  unfold main. unfold mbind at 1, script_bind, bind.
  rewrite sidebar_unfold.
  destruct (if enable_voice_output w then index (selected_voice s)
            else Ok 0%nat); [|reflexivity].
  destruct (new_conversation_clicked w); reflexivity.
Qed.

(** Past the lookup, a run does not depend on what the lookup gave. *)
Lemma run_found (index index' : string -> result nat)
    (w : widgets) (s : session_state) :
  voice_found index w s -> voice_found index' w s ->
  run index w s = run index' w s.
Proof.
  intros Hfound Hfound'. unfold run. rewrite !main_unfold.
  unfold voice_found in *.
  destruct (enable_voice_output w) eqn:Hv; [|reflexivity].
  destruct Hfound as [Hoff|[i Hi]]; [discriminate|].
  destruct Hfound' as [Hoff|[j Hj]]; [discriminate|].
  rewrite Hi, Hj. reflexivity.
Qed.

Section DefaultVoice.

(** The lookup of a voice in [AVAILABLE_VOICES], whatever that list is,
    as long as the default voice of line 79 is in it. *)
Variable AVAILABLE_VOICES_index : string -> result nat.
Variable position : nat.
Hypothesis nova_offered : AVAILABLE_VOICES_index "nova" = Ok position.

Local Abbreviation session := (VoiceChat.session AVAILABLE_VOICES_index).

Lemma run_nova (w : widgets) (s : session_state) :
  selected_voice s = "nova" ->
  run AVAILABLE_VOICES_index w s = run (index_in ["nova"]) w s.
Proof.
  intros Hs. apply run_found; right; rewrite Hs.
  - exists position. exact nova_offered.
  - exists 0%nat. reflexivity.
Qed.

(** C6, as the file stands.  From the initial state, after the switch
    to text mode, the turn "hello" leaves one entry in the transcript,
    the user's: TODO 2 and TODO 4 are blank, so [chatbot_response] is
    not called, no assistant entry is appended and the conversation id
    stays [None].  After "how are you" there are two entries, both the
    user's, and the id is still [None].  The spec's example wants two
    entries after the first turn and the id "abc123" on the second. *)
Theorem hello_turn_leaves_one_entry :
  (session [click_text; typing "hello"] initial_state).1
  = set_input_mode "text"
      (set_messages [human_turn "hello" false] initial_state)
  /\ length (messages
               (session [click_text; typing "hello"] initial_state).1)
     = 1%nat
  /\ session [click_text; typing "hello"; typing "how are you"]
       initial_state
     = (set_input_mode "text"
          (set_messages [human_turn "hello" false;
                         human_turn "how are you" false] initial_state),
        [ [];
          [Spinner "Thinking..."; Spinner "Generating voice response..."];
          [Markdown (bubble "user-message" "hello");
           Spinner "Thinking..."; Spinner "Generating voice response..."] ])
  /\ forall (user_text : string) (from_voice : bool)
            (s : session_state) (page : list ui),
       let s' := (process_user_input user_text from_voice s page).1.2 in
       conversation_id s' = conversation_id s
       /\ messages s' = messages s ++ [human_turn user_text from_voice].
Proof.
  assert (H2 : session [click_text; typing "hello"] initial_state
               = VoiceChat.session (index_in ["nova"])
                   [click_text; typing "hello"] initial_state).
  { rewrite !session_cons.
    rewrite (run_nova click_text initial_state) by reflexivity.
    rewrite (run_nova (typing "hello")) by (vm_compute; reflexivity). reflexivity. }
  assert (H3 : session [click_text; typing "hello"; typing "how are you"]
                 initial_state
               = VoiceChat.session (index_in ["nova"])
                   [click_text; typing "hello"; typing "how are you"]
                   initial_state).
  { rewrite !session_cons.
    rewrite (run_nova click_text initial_state) by reflexivity.
    rewrite (run_nova (typing "hello")) by (vm_compute; reflexivity).
    rewrite (run_nova (typing "how are you")) by (vm_compute; reflexivity). reflexivity. }
  rewrite H2, H3.
  split; [vm_compute; reflexivity|].
  split; [vm_compute; reflexivity|].
  split; [vm_compute; reflexivity|].
  intros user_text from_voice s page.
  rewrite process_user_input_appends_one. split; reflexivity.
Qed.

(** C5, as the file stands.  The button does clear the transcript and
    reset the conversation id.  The turn after it, though, reaches no
    call of the chat function, with an empty id or any other: below,
    a conversation is started in text mode, reset, and "hello" is
    typed; that run shows the two spinners and leaves the one user
    entry.  Same blank (TODO 2) as in C6. *)
Theorem new_conversation_then_turn :
  (forall s : session_state,
     conversation_id (new_conversation s) = None
     /\ messages (new_conversation s) = []
     /\ processed_audio_hash (new_conversation s) = None
     /\ audio_input_key (new_conversation s) = audio_input_key s + 1)
  /\ session [click_text; typing "hi"; click_new_conversation;
              typing "hello"] initial_state
     = (set_audio_input_key 1
          (set_input_mode "text"
             (set_messages [human_turn "hello" false] initial_state)),
        [ [];
          [Spinner "Thinking..."; Spinner "Generating voice response..."];
          [];
          [Spinner "Thinking..."; Spinner "Generating voice response..."] ]).
Proof.
  split; [intros s; repeat split|].
  assert (H4 : session [click_text; typing "hi"; click_new_conversation;
                        typing "hello"] initial_state
               = VoiceChat.session (index_in ["nova"])
                   [click_text; typing "hi"; click_new_conversation;
                    typing "hello"] initial_state).
  { rewrite !session_cons.
    rewrite (run_nova click_text initial_state) by reflexivity.
    rewrite (run_nova (typing "hi")) by (vm_compute; reflexivity).
    rewrite (run_nova click_new_conversation) by (vm_compute; reflexivity).
    rewrite (run_nova (typing "hello")) by (vm_compute; reflexivity). reflexivity. }
  rewrite H4. vm_compute. reflexivity.
Qed.

End DefaultVoice.

Lemma hello_turn_leaves_one_entry_witness :
  length (messages
            (session (index_in ["alloy"; "nova"])
               [click_text; typing "hello"] initial_state).1)
  = 1%nat.
Proof.
  apply (hello_turn_leaves_one_entry (index_in ["alloy"; "nova"]) 1%nat).
  reflexivity.
Defined.

Lemma new_conversation_then_turn_witness :
  session (index_in ["alloy"; "nova"])
    [click_text; typing "hi"; click_new_conversation; typing "hello"]
    initial_state
  = (set_audio_input_key 1
       (set_input_mode "text"
          (set_messages [human_turn "hello" false] initial_state)),
     [ [];
       [Spinner "Thinking..."; Spinner "Generating voice response..."];
       [];
       [Spinner "Thinking..."; Spinner "Generating voice response..."] ]).
Proof.
  apply (new_conversation_then_turn (index_in ["alloy"; "nova"]) 1%nat).
  reflexivity.
Defined.

(** No run of the script, as it stands, shows an error box, and the one
    exception a run can end in is that of the voice lookup in the
    sidebar: nothing under the [try] of the voice handler, and nothing
    in [process_user_input], can raise. *)
Lemma main_calm (index : string -> result nat) (w : widgets)
    (s : session_state) (page : list ui) :
  (forall text, Error text ∉ page) ->
  (forall text, Error text ∉ (main index w s page).2)
  /\ forall e, (main index w s page).1.1 = Raised e ->
       enable_voice_output w = true /\ index (selected_voice s) = Raise e.
Proof.
  intros Hpage.
  assert (Hrest : calm (display_chat_history ;; input_section w)).
  { unfold input_section, mode_toggle, process_text_input,
      process_voice_input, handle_transcript, process_user_input,
      with_spinner.
    repeat calm_step. }
  rewrite main_unfold.
  destruct (enable_voice_output w) eqn:Hv.
  - destruct (index (selected_voice s)) as [i|e0] eqn:Hi.
    + destruct (new_conversation_clicked w).
      * split; [exact Hpage|cbn; intros e He; discriminate He].
      * destruct (Hrest (apply_settings w s) page Hpage) as [Ho Hp].
        split; [exact Hp|]. intros e He. destruct (Ho e He).
    + split; [exact Hpage|]. cbn. intros e He. inversion He. subst.
      split; reflexivity.
  - destruct (new_conversation_clicked w).
    + split; [exact Hpage|cbn; intros e He; discriminate He].
    + destruct (Hrest (apply_settings w s) page Hpage) as [Ho Hp].
      split; [exact Hp|]. intros e He. destruct (Ho e He).
Qed.

End VoiceChatFacts.

(** * More on the realtime bridge: the receiver's dispatch, the sender *)
Module BridgeFacts.
Import Realtime.

Lemma eq_str_ne (v : json) (k : string) : v <> JStr k -> eq_str v k = false.
Proof.
  intros Hne. destruct v as [|s|fields]; cbn; try reflexivity.
  apply bool_decide_eq_false_2. intros ->. apply Hne. reflexivity.
Qed.

Lemma eq_str_true (v : json) (k : string) : eq_str v k = true -> v = JStr k.
Proof.
  destruct v as [|s|fields]; cbn; try discriminate.
  intros H. apply bool_decide_eq_true_1 in H. subst. reflexivity.
Qed.

(** An event whose type has no branch in [receive_messages] (a type the
    script does not know, a type that is not a string, or no type at
    all: the default is the empty string) changes nothing and prints
    nothing. *)
Theorem unknown_event_is_ignored
    (fields : gmap string json) (r : receiver) :
  (forall k : string, k ∈ handled_types ->
     default (JStr EmptyString) (fields !! "type") <> JStr k) ->
  dispatch (JObj fields) r = Ok r.
Proof.
  intros Hnew. unfold dispatch, get.
  set (t := default (JStr EmptyString) (fields !! "type")) in *.
  assert (Hk : forall k, k ∈ handled_types -> eq_str t k = false).
  { intros k Hin. apply eq_str_ne, Hnew, Hin. }
  rewrite !Hk; [reflexivity|unfold handled_types; set_solver..].
Qed.

Lemma unknown_event_is_ignored_witness :
  dispatch (JObj (<["type" := JStr "rate_limits.updated"]> ∅))
    {| agent := started; audio_buffer := []; output := [] |}
  = Ok {| agent := started; audio_buffer := []; output := [] |}.
Proof.
  apply (unknown_event_is_ignored
           (<["type" := JStr "rate_limits.updated"]> ∅)
           {| agent := started; audio_buffer := []; output := [] |}).
  intros k Hin. vm_compute.
  unfold handled_types in Hin.
  repeat (apply elem_of_cons in Hin as [->|Hin]; [discriminate|]).
  inversion Hin.
Defined.

Lemma receive_loop_stopped (inbox : list received) (r : receiver) :
  is_running (agent r) = false -> receive_loop inbox r = r.
Proof.
  intros Hrun. destruct inbox as [|m rest]; cbn; [reflexivity|].
  rewrite Hrun. reflexivity.
Qed.

(** Reads that run into the 0.1 s timeout leave no trace: the receiver
    ends in the same state with or without them. *)
Theorem timeouts_leave_no_trace (inbox : list received) :
  forall r : receiver,
    receive_loop (filter (fun m => is_timeout m = false) inbox) r
    = receive_loop inbox r.
Proof.
  induction inbox as [|m rest IH]; intros r; [reflexivity|].
  rewrite filter_cons.
  destruct (is_running (agent r)) eqn:Hrun;
    [|rewrite !receive_loop_stopped by exact Hrun; reflexivity].
  destruct m as [| |text|event]; cbn [is_timeout];
    case_decide; try discriminate; try congruence;
    cbn [receive_loop]; rewrite Hrun; cbn [negb].
  - apply IH.
  - reflexivity.
  - apply IH.
  - destruct (dispatch event r); apply IH.
Qed.

(** Once the connection is reported closed the loop is left: whatever
    would have arrived afterwards is not looked at. *)
Theorem nothing_is_read_after_close (pre post : list received) :
  forall r : receiver,
    receive_loop (pre ++ Closed :: post) r = receive_loop (pre ++ [Closed]) r.
Proof.
  induction pre as [|m rest IH]; intros r; cbn.
  - reflexivity.
  - destruct (negb (is_running (agent r))); [reflexivity|].
    destruct m as [| |text|event]; try apply IH; [reflexivity|].
    destruct (dispatch event r); apply IH.
Qed.

(** The receiver works message by message: as long as the connection
    is not reported closed, handling a batch and then another is
    handling the two in one go. *)
Theorem receiver_is_incremental (xs ys : list received) :
  Closed ∉ xs ->
  forall r : receiver,
    receive_loop (xs ++ ys) r = receive_loop ys (receive_loop xs r).
Proof.
  induction xs as [|m rest IH]; intros Hopen r; [reflexivity|].
  destruct (is_running (agent r)) eqn:Hrun;
    [|rewrite (receive_loop_stopped ((m :: rest) ++ ys) r Hrun),
        (receive_loop_stopped (m :: rest) r Hrun),
        (receive_loop_stopped ys r Hrun); reflexivity].
  assert (Hrest : Closed ∉ rest) by set_solver.
  cbn. rewrite Hrun. cbn.
  destruct m as [| |text|event].
  - apply IH, Hrest.
  - exfalso. apply Hopen. left.
  - apply IH, Hrest.
  - destruct (dispatch event r); apply IH, Hrest.
Qed.

Lemma receiver_is_incremental_witness :
  receive_loop ([Message audio_done; TimedOut] ++ [Failed "bad json"])
    {| agent := started; audio_buffer := []; output := [] |}
  = receive_loop [Failed "bad json"]
      (receive_loop [Message audio_done; TimedOut]
         {| agent := started; audio_buffer := []; output := [] |}).
Proof.
  apply (receiver_is_incremental [Message audio_done; TimedOut]
           [Failed "bad json"]).
  intros Hin. apply elem_of_cons in Hin as [Hin|Hin]; [discriminate|].
  apply elem_of_cons in Hin as [Hin|Hin]; [discriminate|inversion Hin].
Defined.

Lemma dispatch_agent (event : json) (r r' : receiver) :
  dispatch event r = Ok r' ->
  agent r' = agent r \/ agent r' = set_is_speaking false (agent r).
Proof.
  intros Hd. unfold dispatch, print_value in Hd.
  repeat (case_match; simplify_eq; try discriminate);
    cbn; auto.
Qed.

Lemma receive_error_agent (text : string) (r : receiver) :
  agent (receive_error text r) = agent r.
Proof. unfold receive_error. destruct (is_running (agent r)); reflexivity. Qed.

(** Of the agent, the receiver writes [is_speaking] only, and only to
    clear it.  The connection, the two queues and [is_running] are as
    they were when it returns, also after a closed connection: the
    receiver does not stop the sender. *)
Theorem receiver_only_clears_is_speaking
    (inbox : list received) (a : RealtimeVoiceAgent) :
  agent (receive_messages inbox a) = a
  \/ agent (receive_messages inbox a) = set_is_speaking false a.
Proof.
  unfold receive_messages.
  assert (Hgen : forall r,
             agent r = a \/ agent r = set_is_speaking false a ->
             agent (receive_loop inbox r) = a
             \/ agent (receive_loop inbox r) = set_is_speaking false a).
  { induction inbox as [|m rest IH]; intros r Hr; cbn; [exact Hr|].
    destruct (negb (is_running (agent r))); [exact Hr|].
    destruct m as [| |text|event].
    - apply IH, Hr.
    - exact Hr.
    - apply IH. rewrite receive_error_agent. exact Hr.
    - destruct (dispatch event r) as [r'|e] eqn:Hd.
      + apply IH. destruct (dispatch_agent _ _ _ Hd) as [-> | ->].
        * exact Hr.
        * right. destruct Hr as [-> | ->]; reflexivity.
      + apply IH. rewrite receive_error_agent. exact Hr. }
  apply Hgen. left. reflexivity.
Qed.

Lemma print_value_raises (prefix : string) (v : json) (end_ : string)
    (r : receiver) (e : exn) :
  print_value prefix v end_ r = Raise e ->
  exists text, v = JStr text /\ encode_error (prefix +:+ text) = Some e.
Proof.
  unfold print_value. destruct v as [|text|fields]; try discriminate.
  destruct (encode_error (prefix +:+ text)) as [e'|] eqn:He;
    [|discriminate].
  intros [= <-]. exists text. split; [reflexivity|exact He].
Qed.

Lemma default_is (d v : json) (o : option json) :
  default d o = v -> v <> d -> o = Some v.
Proof. destruct o as [x|]; cbn; intros; congruence. Qed.

(** Which messages end in the [except Exception] branch: those that are
    not a JSON object; "error" events whose "error" field is there but
    is not an object; and events whose printed string (the transcript
    of a transcription, the delta of a reply's transcript, the message
    of an error) holds a lone surrogate, which [print] refuses.  Every
    other message is handled. *)
Theorem dispatch_raises_only_on_malformed
    (event : json) (r : receiver) (e : exn) :
  dispatch event r = Raise e ->
  (forall fields, event <> JObj fields)
  \/ (exists fields v,
        event = JObj fields
        /\ fields !! "type" = Some (JStr "error")
        /\ fields !! "error" = Some v
        /\ forall m, v <> JObj m)
  \/ exists fields prefix text,
       event = JObj fields
       /\ encode_error (prefix +:+ text) = Some e
       /\ ((fields !! "type"
            = Some (JStr "conversation.item.input_audio_transcription.completed")
            /\ fields !! "transcript" = Some (JStr text)
            /\ prefix = "You: ")
           \/ (fields !! "type" = Some (JStr "response.audio_transcript.delta")
               /\ fields !! "delta" = Some (JStr text)
               /\ prefix = EmptyString)
           \/ (fields !! "type" = Some (JStr "error")
               /\ prefix = "Error: "
               /\ exists m, fields !! "error" = Some (JObj m)
                    /\ m !! "message" = Some (JStr text))).
Proof.
  intros Hd. destruct event as [|s|fields];
    [left; discriminate | left; discriminate |].
  right. unfold dispatch in Hd. cbn [get] in Hd.
  set (t := default (JStr EmptyString) (fields !! "type")) in *.
  assert (Htype : forall k, k <> EmptyString -> eq_str t k = true ->
                   fields !! "type" = Some (JStr k)).
  { intros k Hk Ht. apply eq_str_true in Ht. subst t.
    apply (default_is _ _ _ Ht). intros [= ->]. apply Hk. reflexivity. }
  repeat (match type of Hd with
          | (if eq_str t ?k then _ else _) = _ =>
              destruct (eq_str t k) eqn:?
          end; try discriminate).
  - destruct (truthy _); [|discriminate].
    apply print_value_raises in Hd as (text & Hv & He).
    right. exists fields, "You: ", text.
    split; [reflexivity|]. split; [exact He|]. left.
    split; [apply Htype; [discriminate|assumption]|].
    split; [|reflexivity].
    apply (default_is _ _ _ Hv). intros [= ->].
    vm_compute in He. discriminate.
  - apply print_value_raises in Hd as (text & Hv & He).
    right. exists fields, EmptyString, text.
    split; [reflexivity|]. split; [exact He|]. right. left.
    split; [apply Htype; [discriminate|assumption]|].
    split; [|reflexivity].
    apply (default_is _ _ _ Hv). intros [= ->].
    vm_compute in He. discriminate.
  - assert (Herror : fields !! "type" = Some (JStr "error"))
      by (apply Htype; [discriminate|assumption]).
    destruct (fields !! "error") as [v|] eqn:Herr; cbn [default] in Hd.
    + destruct v as [|s|m]; cbn [get] in Hd.
      * left. exists fields, JNull. repeat split; try assumption.
        discriminate.
      * left. exists fields, (JStr s). repeat split; try assumption.
        discriminate.
      * apply print_value_raises in Hd as (text & Hv & He).
        right. exists fields, "Error: ", text.
        split; [reflexivity|]. split; [exact He|]. right. right.
        split; [exact Herror|]. split; [reflexivity|].
        exists m. split; [exact Herr|].
        apply (default_is _ _ _ Hv). intros [= ->].
        vm_compute in He. discriminate.
    + cbn [get] in Hd. rewrite lookup_empty in Hd. cbn in Hd.
      apply print_value_raises in Hd as (text & Hv & He).
      injection Hv as <-. vm_compute in He. discriminate.
Qed.

(** The event the witness is about: a reply's transcript delta that is
    the lone surrogate "\ud83d". *)
Lemma dispatch_raises_only_on_malformed_witness :
  (forall fields, lone_surrogate_delta <> JObj fields)
  \/ (exists fields v,
        lone_surrogate_delta = JObj fields
        /\ fields !! "type" = Some (JStr "error")
        /\ fields !! "error" = Some v
        /\ forall m, v <> JObj m)
  \/ exists fields prefix text,
       lone_surrogate_delta = JObj fields
       /\ encode_error (prefix +:+ text)
          = Some (Exception
                    "'utf-8' codec can't encode character '\ud83d' in position 0: surrogates not allowed")
       /\ ((fields !! "type"
            = Some (JStr "conversation.item.input_audio_transcription.completed")
            /\ fields !! "transcript" = Some (JStr text)
            /\ prefix = "You: ")
           \/ (fields !! "type" = Some (JStr "response.audio_transcript.delta")
               /\ fields !! "delta" = Some (JStr text)
               /\ prefix = EmptyString)
           \/ (fields !! "type" = Some (JStr "error")
               /\ prefix = "Error: "
               /\ exists m, fields !! "error" = Some (JObj m)
                    /\ m !! "message" = Some (JStr text))).
Proof.
  apply (dispatch_raises_only_on_malformed lone_surrogate_delta
           {| agent := started; audio_buffer := []; output := [] |}
           (Exception
              "'utf-8' codec can't encode character '\ud83d' in position 0: surrogates not allowed")).
  vm_compute. reflexivity.
Defined.

(** An "error" event with no "error" field, or with an error object
    that has no "message", is reported as "Error: Unknown error". *)
Theorem error_event_without_message
    (fields : gmap string json) (r : receiver) :
  fields !! "type" = Some (JStr "error") ->
  (fields !! "error" = None
   \/ exists m, fields !! "error" = Some (JObj m) /\ m !! "message" = None) ->
  dispatch (JObj fields) r
  = Ok (emit [PrintValue "Error: " (JStr "Unknown error") nl] r).
Proof.
  intros Htype Herr. unfold dispatch. cbn [get]. rewrite Htype. cbn.
  destruct Herr as [->|(m & -> & Hm)]; cbn.
  - rewrite lookup_empty. reflexivity.
  - rewrite Hm. reflexivity.
Qed.

Lemma error_event_without_message_witness :
  dispatch (JObj (<["type" := JStr "error"]> ∅))
    {| agent := started; audio_buffer := []; output := [] |}
  = Ok (emit [PrintValue "Error: " (JStr "Unknown error") nl]
          {| agent := started; audio_buffer := []; output := [] |}).
Proof.
  apply (error_event_without_message (<["type" := JStr "error"]> ∅)
           {| agent := started; audio_buffer := []; output := [] |}).
  - vm_compute. reflexivity.
  - left. vm_compute. reflexivity.
Defined.

(** *** The capture callback and the sender *)

(** On a queue with a capacity, the callback keeps the earliest frames
    and drops the later ones: after any burst the queue holds the first
    [maxsize] of what was queued and delivered, in order. *)
Theorem full_queue_drops_the_newest (frames : list bytes) :
  forall a : RealtimeVoiceAgent,
    0 < Queue.maxsize (audio_queue a) ->
    Queue.qsize (audio_queue a) <= Queue.maxsize (audio_queue a) ->
    Queue.maxsize (audio_queue (capture frames a))
    = Queue.maxsize (audio_queue a)
    /\ Queue.items (audio_queue (capture frames a))
       = take (Z.to_nat (Queue.maxsize (audio_queue a)))
           (Queue.items (audio_queue a) ++ frames).
Proof.
  induction frames as [|f rest IH]; intros a Hpos Hfits; cbn [capture].
  - split; [reflexivity|]. rewrite app_nil_r, take_ge; [reflexivity|].
    unfold Queue.qsize in Hfits. lia.
  - unfold audio_callback, Queue.put_nowait, Queue.full.
    destruct (Queue.maxsize (audio_queue a) <=? 0) eqn:Hle; [lia|].
    destruct (Queue.maxsize (audio_queue a) <=? Queue.qsize (audio_queue a))
      eqn:Hfull; cbn [fst].
    + destruct (IH a Hpos Hfits) as [Hm Hi]. split; [exact Hm|].
      rewrite Hi. unfold Queue.qsize in *.
      rewrite !take_app_le by lia. reflexivity.
    + unfold Queue.qsize in *.
      destruct (IH (set_audio_queue
                      {| Queue.maxsize := Queue.maxsize (audio_queue a);
                         Queue.items := Queue.items (audio_queue a) ++ [f] |}
                      a)) as [Hm Hi]; cbn.
      * exact Hpos.
      * unfold Queue.qsize. cbn. rewrite length_app. cbn. lia.
      * split; [exact Hm|]. rewrite Hi. cbn. rewrite <- app_assoc.
        reflexivity.
Qed.

Lemma full_queue_drops_the_newest_witness :
  Queue.maxsize
    (audio_queue
       (capture [[x01]; [x02]; [x03]]
          (set_audio_queue (Queue.new 2) started)))
  = Queue.maxsize (audio_queue (set_audio_queue (Queue.new 2) started))
  /\ Queue.items
       (audio_queue
          (capture [[x01]; [x02]; [x03]]
             (set_audio_queue (Queue.new 2) started)))
     = take (Z.to_nat
               (Queue.maxsize
                  (audio_queue (set_audio_queue (Queue.new 2) started))))
         (Queue.items (audio_queue (set_audio_queue (Queue.new 2) started))
          ++ [[x01]; [x02]; [x03]]).
Proof.
  apply (full_queue_drops_the_newest [[x01]; [x02]; [x03]]
           (set_audio_queue (Queue.new 2) started));
    vm_compute; [reflexivity|discriminate].
Defined.

Lemma send_loop_running (ticks : list tick) :
  forall x : sender,
    is_running (mic (send_loop ticks x)) = is_running (mic x).
Proof.
  induction ticks as [|t rest IH]; intros x; cbn; [reflexivity|].
  destruct (is_running (mic x)) eqn:Hrun; cbn; [|exact Hrun].
  destruct t as [indata status|].
  - unfold audio_callback.
    destruct (Queue.put_nowait (audio_queue (mic x)) indata);
      rewrite IH; exact Hrun.
  - unfold send_iteration.
    destruct (Queue.get (audio_queue (mic x))) as [[frame q]|];
      rewrite IH; exact Hrun.
Qed.

Lemma send_loop_conserves (ticks : list tick) :
  forall x : sender,
    is_running (mic x) = true ->
    Queue.maxsize (audio_queue (mic x)) <= 0 ->
    Queue.maxsize (audio_queue (mic (send_loop ticks x))) <= 0
    /\ taken (send_loop ticks x)
       ++ Queue.items (audio_queue (mic (send_loop ticks x)))
       = taken x ++ Queue.items (audio_queue (mic x)) ++ captured ticks.
Proof.
  induction ticks as [|t rest IH]; intros x Hrun Hmax; cbn [send_loop].
  - cbn. rewrite app_nil_r. split; [exact Hmax|reflexivity].
  - rewrite Hrun. cbn [negb]. destruct t as [indata status|].
    + unfold audio_callback, Queue.put_nowait, Queue.full.
      destruct (Queue.maxsize (audio_queue (mic x)) <=? 0) eqn:Hle; [|lia].
      edestruct IH as [Hm Hc]; [| |split; [exact Hm|rewrite Hc]].
      * exact Hrun.
      * exact Hmax.
      * cbn. rewrite <- !app_assoc. reflexivity.
    + unfold send_iteration, Queue.get.
      destruct (Queue.items (audio_queue (mic x))) as [|frame q] eqn:Hq.
      * edestruct IH as [Hm Hc]; [| |split; [exact Hm|rewrite Hc]].
        -- exact Hrun.
        -- exact Hmax.
        -- cbn. rewrite Hq, app_nil_r. reflexivity.
      * edestruct IH as [Hm Hc]; [| |split; [exact Hm|rewrite Hc]].
        -- exact Hrun.
        -- exact Hmax.
        -- cbn. rewrite <- !app_assoc. reflexivity.
Qed.

(** Between the capture callback and the loop of [send_audio] no frame
    is lost, repeated or reordered on the agent's own queue: whatever
    the order of callbacks and loop turns, the frames the loop has taken
    followed by the frames still queued are the frames delivered, in
    the order of delivery. *)
Theorem sender_takes_frames_in_order
    (ticks : list tick) (a : RealtimeVoiceAgent) :
  is_running a = true ->
  audio_queue a = audio_queue __init__ ->
  taken (send_audio ticks a)
  ++ Queue.items (audio_queue (mic (send_audio ticks a)))
  = captured ticks.
Proof.
  intros Hrun Hq. unfold send_audio.
  edestruct (send_loop_conserves ticks) as [_ Hc]; [| |rewrite Hc].
  - exact Hrun.
  - cbn. rewrite Hq. cbn. lia.
  - cbn. rewrite Hq. reflexivity.
Qed.

Lemma sender_takes_frames_in_order_witness :
  taken (send_audio [Captured [x01] None; Captured [x02] None; Turn] started)
  ++ Queue.items
       (audio_queue
          (mic (send_audio
                  [Captured [x01] None; Captured [x02] None; Turn] started)))
  = captured [Captured [x01] None; Captured [x02] None; Turn].
Proof.
  apply (sender_takes_frames_in_order
           [Captured [x01] None; Captured [x02] None; Turn] started);
    reflexivity.
Defined.

Lemma dispatch_with_queue (event : json) (r : receiver) (q : Queue.t) :
  dispatch event (with_agent (set_audio_queue q (agent r)) r)
  = match dispatch event r with
    | Ok r' => Ok (with_agent (set_audio_queue q (agent r')) r')
    | Raise e => Raise e
    end.
Proof.
  unfold dispatch, print_value.
  repeat (case_match; simplify_eq; try discriminate);
    first [ reflexivity
          | cbn in *; congruence
          | cbn in *;
            unfold with_agent, set_is_speaking, set_audio_queue; cbn;
            congruence ].
Qed.

(** The two loops that [run] starts side by side do not get in each
    other's way.  The receiver neither reads nor writes the send queue:
    with another queue in the agent it does the same and leaves that
    queue alone.  The sender and the capture callback neither read nor
    write [is_speaking]: with another value there they do the same and
    leave that value alone. *)
Theorem loops_do_not_interfere :
  (forall (inbox : list received) (r : receiver) (q : Queue.t),
     receive_loop inbox (with_agent (set_audio_queue q (agent r)) r)
     = with_agent (set_audio_queue q (agent (receive_loop inbox r)))
         (receive_loop inbox r))
  /\ forall (ticks : list tick) (x : sender) (b : bool),
       send_loop ticks (with_mic (set_is_speaking b (mic x)) x)
       = with_mic (set_is_speaking b (mic (send_loop ticks x)))
           (send_loop ticks x).
Proof.
  split.
  - induction inbox as [|m rest IH]; intros r q; cbn [receive_loop].
    + reflexivity.
    + cbn [with_agent agent set_audio_queue is_running].
      destruct (negb (is_running (agent r))); [reflexivity|].
      destruct m as [| |text|event].
      * apply IH.
      * reflexivity.
      * unfold receive_error. cbn [with_agent agent set_audio_queue is_running].
        destruct (is_running (agent r));
          [exact (IH (emit [PrintLine ("Receive error: " +:+ text)] r) q)
          |exact (IH r q)].
      * rewrite dispatch_with_queue.
        destruct (dispatch event r) as [r'|e]; [apply IH|].
        unfold receive_error. cbn [with_agent agent set_audio_queue is_running].
        destruct (is_running (agent r));
          [exact (IH (emit [PrintLine ("Receive error: " +:+ exn_text e)] r) q)
          |exact (IH r q)].
  - induction ticks as [|t rest IH]; intros x b; cbn [send_loop].
    + reflexivity.
    + cbn [with_mic mic set_is_speaking is_running].
      destruct (negb (is_running (mic x))); [reflexivity|].
      destruct t as [indata status|].
      * unfold audio_callback. cbn [set_is_speaking audio_queue].
        destruct (Queue.put_nowait (audio_queue (mic x)) indata) as [q|e].
        -- exact (IH {| mic := set_audio_queue q (mic x); taken := taken x;
                        said := said x ++ _ |} b).
        -- exact (IH {| mic := mic x; taken := taken x;
                        said := said x ++ _ |} b).
      * unfold send_iteration. cbn [set_is_speaking audio_queue].
        destruct (Queue.get (audio_queue (mic x))) as [[frame q]|].
        -- exact (IH {| mic := set_audio_queue q (mic x);
                        taken := taken x ++ [frame]; said := said x |} b).
        -- exact (IH {| mic := mic x; taken := taken x ++ [];
                        said := said x |} b).
Qed.

End BridgeFacts.

(** * More on the voice chat UI: defaults, sidebar, history, sessions *)
Module PageFacts.
Import VoiceChat.
Import VoiceChatFacts.

(** *** Defaults *)

Lemma lookup_set_default (k j : string) (v : value) (d : gmap string value) :
  set_default k v d !! j
  = match d !! j with
    | Some x => Some x
    | None => if decide (k = j) then Some v else None
    end.
Proof.
  unfold set_default. destruct (d !! k) as [x|] eqn:Hk.
  - destruct (d !! j) as [y|] eqn:Hj; [reflexivity|].
    case_decide; [congruence|reflexivity].
  - destruct (decide (k = j)) as [->|Hne].
    + rewrite lookup_insert_eq, Hk. reflexivity.
    + rewrite lookup_insert_ne by exact Hne.
      destruct (d !! j); reflexivity.
Qed.

Lemma set_default_present (k : string) (v : value) (d : gmap string value) :
  is_Some (d !! k) -> set_default k v d = d.
Proof. intros [x Hx]. unfold set_default. rewrite Hx. reflexivity. Qed.

Lemma initialize_keeps (d : gmap string value) (k : string) (v : value) :
  d !! k = Some v -> initialize d !! k = Some v.
Proof.
  intros Hk. unfold initialize. cbv zeta.
  rewrite !lookup_set_default, Hk. reflexivity.
Qed.

Lemma initialize_complete (d : gmap string value) (k : string) :
  k ∈ session_keys -> is_Some (initialize d !! k).
Proof.
  intros Hin. unfold session_keys in Hin.
  unfold initialize. cbv zeta. rewrite !lookup_set_default.
  destruct (d !! k) as [x|]; [eauto|].
  repeat (apply elem_of_cons in Hin as [->|Hin];
          [repeat case_decide; try congruence; eauto|]).
  inversion Hin.
Qed.

(** The defaults at the top of the script fill gaps and nothing else:
    a key that is set keeps its value, each of the nine keys is set
    afterwards, other keys are not touched, running the block again
    changes nothing, and on the empty dictionary of a new session the
    result is the initial state. *)
Theorem defaults_fill_only_gaps :
  (forall (d : gmap string value) (k : string) (v : value),
     d !! k = Some v -> initialize d !! k = Some v)
  /\ (forall (d : gmap string value) (k : string),
        k ∈ session_keys -> is_Some (initialize d !! k))
  /\ (forall (d : gmap string value) (k : string),
        k ∉ session_keys -> initialize d !! k = d !! k)
  /\ (forall d : gmap string value, initialize (initialize d) = initialize d)
  /\ load (initialize ∅) = Some initial_state.
Proof.
  split; [exact initialize_keeps|]. split; [exact initialize_complete|].
  split; [|split].
  - intros d k Hout. unfold initialize. cbv zeta.
    rewrite !lookup_set_default. destruct (d !! k); [reflexivity|].
    unfold session_keys in Hout.
    repeat case_decide; try reflexivity; subst; exfalso; apply Hout;
      set_solver.
  - intros d. unfold initialize at 1. cbv zeta.
    repeat (rewrite (set_default_present _ _ (initialize d))
              by (apply initialize_complete; unfold session_keys; set_solver)).
    reflexivity.
  - vm_compute. reflexivity.
Qed.

Lemma defaults_fill_only_gaps_witness :
  initialize (<["input_mode" := VStr "text"]> ∅) !! "input_mode"
  = Some (VStr "text").
Proof.
  apply (proj1 defaults_fill_only_gaps
           (<["input_mode" := VStr "text"]> ∅) "input_mode" (VStr "text")).
  vm_compute. reflexivity.
Defined.

(** *** The language select box *)

(** The language box starts on the stored language: the name found for
    the code of a language is that language, so leaving the box alone
    keeps the setting.  For a code that is not in [LANGUAGE_OPTIONS]
    the box starts on English, and the sidebar, when it gets past the
    voice lookup, then overwrites the stored code with "en". *)
Theorem language_box_round_trip :
  (forall name : language_name,
     stored_language_name (LANGUAGE_OPTIONS name) = name)
  /\ (forall code : option string,
        (forall name, LANGUAGE_OPTIONS name <> code) ->
        stored_language_name code = English)
  /\ forall (index : string -> result nat)
            (w : widgets) (s : session_state) (page : list ui),
       voice_found index w s ->
       input_language w = stored_language_name (transcription_language s) ->
       ((exists name, LANGUAGE_OPTIONS name = transcription_language s) ->
        transcription_language (sidebar index w s page).1.2
        = transcription_language s)
       /\ ((forall name, LANGUAGE_OPTIONS name <> transcription_language s) ->
           transcription_language (sidebar index w s page).1.2 = Some "en").
Proof.
  split; [intros []; reflexivity|].
  assert (Hunknown : forall code,
             (forall name, LANGUAGE_OPTIONS name <> code) ->
             stored_language_name code = English).
  { intros code Hnone. unfold stored_language_name, language_names.
    rewrite !filter_cons, filter_nil.
    repeat case_decide; try reflexivity;
      exfalso; eapply Hnone; eassumption. }
  split; [exact Hunknown|].
  intros index w s page Hfound Hbox.
  assert (Hlang : transcription_language (sidebar index w s page).1.2
                  = LANGUAGE_OPTIONS (input_language w)).
  { rewrite sidebar_unfold. unfold voice_found in Hfound.
    destruct (enable_voice_output w) eqn:Hv.
    - destruct Hfound as [Hoff|[i ->]]; [discriminate|].
      unfold apply_settings. rewrite Hv.
      destruct (new_conversation_clicked w); reflexivity.
    - unfold apply_settings. rewrite Hv.
      destruct (new_conversation_clicked w); reflexivity. }
  rewrite Hlang, Hbox. split.
  - intros [name <-]. destruct name; reflexivity.
  - intros Hnone. rewrite (Hunknown _ Hnone). reflexivity.
Qed.

Lemma language_box_round_trip_witness :
  ((exists name,
      LANGUAGE_OPTIONS name
      = transcription_language
          (set_transcription_language (Some "it") initial_state)) ->
   transcription_language
     (sidebar (index_in ["alloy"; "nova"]) idle
        (set_transcription_language (Some "it") initial_state) []).1.2
   = transcription_language
       (set_transcription_language (Some "it") initial_state))
  /\ ((forall name,
         LANGUAGE_OPTIONS name
         <> transcription_language
              (set_transcription_language (Some "it") initial_state)) ->
      transcription_language
        (sidebar (index_in ["alloy"; "nova"]) idle
           (set_transcription_language (Some "it") initial_state) []).1.2
      = Some "en").
Proof.
  apply (proj2 (proj2 language_box_round_trip)
           (index_in ["alloy"; "nova"]) idle
           (set_transcription_language (Some "it") initial_state) []).
  - right. exists 1%nat. reflexivity.
  - reflexivity.
Defined.

(** *** The chat history *)

Lemma has_audio_clear (m : message) :
  has_audio (clear_just_generated m) = has_audio m.
Proof. reflexivity. Qed.

(** What it takes for the player of one message to start. *)
Lemma display_message_fires (s : session_state) (len idx : nat)
    (m : message) (i : nat) :
  i ∈ autoplayed (display_message s len idx m).2 ->
  i = idx /\ Z.of_nat idx = Z.of_nat len - 1
  /\ voice_enabled s = true /\ auto_play s = true
  /\ role m <> "human" /\ has_audio m = true
  /\ just_generated m = Some true.
Proof.
  unfold display_message.
  destruct (bool_decide (role m = "human")) eqn:Hr;
    [intros H; inversion H|].
  apply bool_decide_eq_false_1 in Hr.
  destruct (has_audio m) eqn:Ha; cbn [andb]; [|intros H; inversion H].
  destruct (voice_enabled s); cbn [andb]; [|intros H; inversion H].
  destruct (auto_play s); cbn [andb]; [|intros H; inversion H].
  destruct (Z.of_nat idx =? Z.of_nat len - 1) eqn:Hl; cbn [andb];
    [|intros H; inversion H].
  destruct (just_generated m) as [[|]|]; cbn;
    intros H; [|inversion H..].
  apply list_elem_of_singleton in H. repeat split; try assumption; lia.
Qed.

(** A message that has been displayed is displayed again without a
    change and without playback. *)
Lemma display_message_again (s : session_state) (len idx : nat)
    (m : message) :
  (display_message s len idx (display_message s len idx m).1).1
  = (display_message s len idx m).1
  /\ autoplayed (display_message s len idx (display_message s len idx m).1).2
     = [].
Proof.
  unfold display_message.
  destruct (bool_decide (role m = "human")) eqn:Hr;
    [cbn [fst]; rewrite Hr; split; reflexivity|].
  destruct (has_audio m) eqn:Ha; cbn [andb];
    [|cbn [fst]; rewrite Hr, Ha; split; reflexivity].
  destruct (voice_enabled s); cbn [andb];
    [|cbn [fst]; rewrite Hr, Ha; split; reflexivity].
  destruct (auto_play s); cbn [andb];
    [|cbn [fst]; rewrite Hr, Ha; split; reflexivity].
  destruct (Z.of_nat idx =? Z.of_nat len - 1); cbn [andb];
    [|cbn [fst]; rewrite Hr, Ha; split; reflexivity].
  destruct (just_generated m) as [[|]|] eqn:Hj;
    cbn [default from_option id fst];
    [change (role (clear_just_generated m)) with (role m);
     rewrite Hr, has_audio_clear, Ha; split; reflexivity
    |rewrite Hr, Ha, Hj; split; reflexivity
    |rewrite Hr, Ha, Hj; split; reflexivity].
Qed.

Lemma display_from_again (s : session_state) (len : nat)
    (ms : list message) :
  forall idx : nat,
    (display_from s len idx (display_from s len idx ms).1).1
    = (display_from s len idx ms).1
    /\ autoplayed (display_from s len idx (display_from s len idx ms).1).2
       = [].
Proof.
  induction ms as [|m rest IH]; intros idx; cbn [display_from].
  - split; reflexivity.
  - destruct (IH (S idx)) as [Hms Hplay].
    destruct (display_message_again s len idx m) as [Hm Hone].
    destruct (display_message s len idx m) as [m' shown].
    destruct (display_from s len (S idx) rest) as [rest' shown'].
    cbn [fst snd display_from] in *.
    destruct (display_message s len idx m') as [m'' shown2].
    destruct (display_from s len (S idx) rest') as [rest'' shown2'].
    cbn [fst snd] in *. subst. rewrite autoplayed_app, Hone, Hplay.
    split; reflexivity.
Qed.

Lemma display_from_entries (s : session_state) (len : nat)
    (ms : list message) (idx : nat) :
  entry <$> (display_from s len idx ms).1 = entry <$> ms.
Proof.
  destruct (display_from_spec s len ms idx) as [Hall _].
  induction Hall as [|m m' ms ms' Hm _ IH]; [reflexivity|].
  cbn. rewrite IH. destruct Hm as [-> | ->]; reflexivity.
Qed.

Lemma display_from_bubbles (s : session_state) (len : nat)
    (ms : list message) :
  forall idx : nat,
    length (bubbles (display_from s len idx ms).2) = length ms.
Proof.
  induction ms as [|m rest IH]; intros idx; cbn [display_from];
    [reflexivity|].
  specialize (IH (S idx)).
  assert (Hone : length (bubbles (display_message s len idx m).2) = 1%nat).
  { unfold display_message. repeat case_match; reflexivity. }
  destruct (display_message s len idx m) as [m' shown].
  destruct (display_from s len (S idx) rest) as [rest' shown'].
  cbn [fst snd] in *. unfold bubbles in *.
  rewrite omap_app, length_app, Hone, IH. reflexivity.
Qed.

Lemma display_chat_history_turns (s : session_state) (page : list ui) :
  exists (ms : list message) (drawn : list ui),
    display_chat_history s page = (Done tt, set_messages ms s, page ++ drawn)
    /\ entry <$> ms = entry <$> messages s
    /\ length (bubbles drawn) = length (messages s).
Proof.
  unfold display_chat_history.
  pose proof (display_from_entries s (length (messages s)) (messages s) 0)
    as Hentries.
  pose proof (display_from_bubbles s (length (messages s)) (messages s) 0)
    as Hbubbles.
  destruct (display_from s (length (messages s)) 0 (messages s))
    as [ms drawn].
  exists ms, drawn. cbn [fst snd] in *. repeat split; assumption.
Qed.

(** Drawing the history shows one bubble per turn and ends normally.
    It changes nothing in the session state but the transcript, and
    nothing in a turn but its [just_generated]: role, content, voice
    mark and audio are as before, in the same order. *)
Theorem history_display_keeps_turns (s : session_state) (page : list ui) :
  exists (ms : list message) (drawn : list ui),
    display_chat_history s page = (Done tt, set_messages ms s, page ++ drawn)
    /\ entry <$> ms = entry <$> messages s
    /\ length (bubbles drawn) = length (messages s).
Proof. exact (display_chat_history_turns s page). Qed.

(** The only player that can start by itself is that of the last turn,
    and only with voice output and autoplay on, for a turn that is not
    the user's, has audio and has its flag set. *)
Theorem only_the_latest_turn_autoplays (s : session_state) (i : nat) :
  i ∈ autoplayed (display_chat_history s []).2 ->
  S i = length (messages s)
  /\ voice_enabled s = true /\ auto_play s = true
  /\ exists m : message,
       messages s !! i = Some m
       /\ role m <> "human" /\ has_audio m = true
       /\ just_generated m = Some true.
Proof.
  unfold display_chat_history.
  assert (Hgen : forall ms idx,
             i ∈ autoplayed (display_from s (length (messages s)) idx ms).2 ->
             exists k m,
               i = (idx + k)%nat /\ ms !! k = Some m
               /\ i ∈ autoplayed
                      (display_message s (length (messages s)) i m).2).
  { induction ms as [|m rest IH]; intros idx; cbn [display_from].
    - intros H. inversion H.
    - specialize (IH (S idx)).
      destruct (display_message s (length (messages s)) idx m)
        as [m' shown] eqn:Hm.
      destruct (display_from s (length (messages s)) (S idx) rest)
        as [rest' shown'].
      cbn [fst snd] in *. rewrite autoplayed_app. intros Hin.
      apply elem_of_app in Hin as [Hin|Hin].
      + assert (Hi : i = idx).
        { eapply (display_message_fires s _ idx m). rewrite Hm. exact Hin. }
        subst i. exists 0%nat, m. rewrite Hm.
        repeat split; [lia|exact Hin].
      + destruct (IH Hin) as (k & m0 & -> & Hk & Hfire).
        exists (S k), m0. repeat split; [lia|exact Hk|].
        replace (idx + S k)%nat with (S idx + k)%nat by lia. exact Hfire. }
  specialize (Hgen (messages s) 0%nat).
  destruct (display_from s (length (messages s)) 0 (messages s))
    as [ms drawn].
  cbn [fst snd] in *. intros Hin.
  destruct (Hgen Hin) as (k & m & -> & Hk & Hfire).
  apply display_message_fires in Hfire
    as (_ & Hlast & Hv & Ha & Hr & Haudio & Hflag).
  cbn in *. repeat split; [lia|assumption..|].
  exists m. repeat split; assumption.
Qed.

Lemma only_the_latest_turn_autoplays_witness :
  S 0 = length
          (messages
             (set_messages
                [ {| role := "ai"; content := "hi there"; from_voice := None;
                     audio := Some [x49; x44; x33];
                     just_generated := Some true |} ]
                initial_state))
  /\ voice_enabled initial_state = true /\ auto_play initial_state = true
  /\ exists m : message,
       [ {| role := "ai"; content := "hi there"; from_voice := None;
            audio := Some [x49; x44; x33];
            just_generated := Some true |} ] !! 0%nat = Some m
       /\ role m <> "human" /\ has_audio m = true
       /\ just_generated m = Some true.
Proof.
  apply (only_the_latest_turn_autoplays
           (set_messages
              [ {| role := "ai"; content := "hi there"; from_voice := None;
                   audio := Some [x49; x44; x33];
                   just_generated := Some true |} ]
              initial_state) 0%nat).
  vm_compute. left.
Defined.

(** The loop looks at two settings of the session state only. *)
Lemma display_from_settings (s s' : session_state) (len : nat)
    (ms : list message) :
  voice_enabled s' = voice_enabled s ->
  auto_play s' = auto_play s ->
  forall idx : nat, display_from s' len idx ms = display_from s len idx ms.
Proof.
  intros Hv Ha. induction ms as [|m rest IH]; intros idx; [reflexivity|].
  cbn [display_from]. rewrite IH. unfold display_message.
  rewrite Hv, Ha. reflexivity.
Qed.

(** Drawing the history a second time, with nothing in between,
    changes nothing and starts no playback. *)
Theorem second_display_is_silent (s : session_state) (page page' : list ui) :
  (display_chat_history (display_chat_history s page).1.2 page').1.2
  = (display_chat_history s page).1.2
  /\ autoplayed (display_chat_history (display_chat_history s page).1.2 []).2
     = [].
Proof.
  unfold display_chat_history.
  destruct (display_from_spec s (length (messages s)) (messages s) 0)
    as [Hall _].
  apply Forall2_length in Hall.
  destruct (display_from_again s (length (messages s)) (messages s) 0)
    as [Hms Hplay].
  destruct (display_from s (length (messages s)) 0 (messages s))
    as [ms drawn].
  cbn [fst snd messages set_messages] in *. rewrite <- Hall.
  destruct (display_from
              (set_messages ms s) (length (messages s)) 0 ms)
    as [ms2 drawn2] eqn:Hd2.
  assert (Hsame : display_from (set_messages ms s) (length (messages s)) 0 ms
                  = display_from s (length (messages s)) 0 ms)
    by (apply display_from_settings; reflexivity).
  rewrite Hsame in Hd2. rewrite Hd2 in Hms, Hplay.
  cbn [fst snd] in *. subst ms2. split; [reflexivity|exact Hplay].
Qed.

(** *** The sidebar and the input section *)

(** A click on "New Conversation" ends the run at the sidebar.  When
    the sidebar gets past the voice lookup, its settings are applied,
    the conversation is reset, nothing is drawn, and a recording or a
    typed line handed over in the same run is not processed.  When the
    lookup fails (voice output on, the stored voice not on offer) the
    run ends in that exception before the button is looked at: only
    [voice_enabled] has been written and nothing is reset. *)
Theorem new_conversation_ends_the_run
    (index : string -> result nat)
    (w : widgets) (s : session_state) (page : list ui) :
  new_conversation_clicked w = true ->
  (voice_found index w s ->
   main index w s page = (Rerun, new_conversation (apply_settings w s), page))
  /\ forall e : exn,
       enable_voice_output w = true ->
       index (selected_voice s) = Raise e ->
       main index w s page = (Raised e, set_voice_enabled true s, page).
Proof.
  intros Hclick. rewrite main_unfold, Hclick. unfold voice_found. split.
  - intros [Hoff|[i Hi]].
    + rewrite Hoff. reflexivity.
    + rewrite Hi. destruct (enable_voice_output w); reflexivity.
  - intros e Hon Hi. rewrite Hon, Hi. reflexivity.
Qed.

Lemma new_conversation_ends_the_run_witness :
  main (index_in ["alloy"; "nova"])
    {| enable_voice_output := true; ai_voice := "alloy";
       auto_play_responses := true; input_language := English;
       new_conversation_clicked := true; voice_clicked := false;
       text_clicked := false; recorded := None;
       typed := Some "one more thing" |}
    (set_input_mode "text"
       (set_messages [human_turn "hello" false] initial_state)) []
  = (Rerun,
     new_conversation
       (apply_settings
          {| enable_voice_output := true; ai_voice := "alloy";
             auto_play_responses := true; input_language := English;
             new_conversation_clicked := true; voice_clicked := false;
             text_clicked := false; recorded := None;
             typed := Some "one more thing" |}
          (set_input_mode "text"
             (set_messages [human_turn "hello" false] initial_state))),
     []).
Proof.
  apply (proj1 (new_conversation_ends_the_run (index_in ["alloy"; "nova"])
                  {| enable_voice_output := true; ai_voice := "alloy";
                     auto_play_responses := true; input_language := English;
                     new_conversation_clicked := true; voice_clicked := false;
                     text_clicked := false; recorded := None;
                     typed := Some "one more thing" |}
                  (set_input_mode "text"
                     (set_messages [human_turn "hello" false] initial_state))
                  [] eq_refl)).
  right. exists 1%nat. reflexivity.
Defined.

(** Without a click on "New Conversation" the sidebar draws nothing and
    leaves the conversation alone, however it ends: id, transcript,
    stored hash, widget key and input mode are as before.  It ends
    normally when it gets past the voice lookup, and in the exception
    of the lookup otherwise, with only [voice_enabled] written.  With
    voice output switched off it reads neither the voice box nor the
    autoplay toggle: the stored voice and autoplay setting stay. *)
Theorem sidebar_leaves_conversation_alone
    (index : string -> result nat)
    (w : widgets) (s : session_state) (page : list ui) :
  new_conversation_clicked w = false ->
  exists (o : outcome unit) (s' : session_state),
    sidebar index w s page = (o, s', page)
    /\ conversation_id s' = conversation_id s
    /\ messages s' = messages s
    /\ processed_audio_hash s' = processed_audio_hash s
    /\ audio_input_key s' = audio_input_key s
    /\ input_mode s' = input_mode s
    /\ (voice_found index w s -> o = Done tt /\ s' = apply_settings w s)
    /\ (forall e : exn, o = Raised e ->
          enable_voice_output w = true
          /\ index (selected_voice s) = Raise e
          /\ s' = set_voice_enabled true s)
    /\ (enable_voice_output w = false ->
        selected_voice s' = selected_voice s /\ auto_play s' = auto_play s).
Proof.
  intros Hclick. rewrite sidebar_unfold, Hclick. unfold voice_found.
  destruct (enable_voice_output w) eqn:Hv.
  - destruct (index (selected_voice s)) as [i|e0] eqn:Hi.
    + exists (Done tt), (apply_settings w s).
      unfold apply_settings. rewrite Hv.
      do 6 (split; [reflexivity|]).
      split; [intros _; split; reflexivity|].
      split; [intros e He; discriminate He | intros Hoff; discriminate Hoff].
    + exists (Raised e0), (set_voice_enabled true s).
      do 6 (split; [reflexivity|]).
      split; [intros [Hoff|[i Hi']]; congruence|].
      split; [|intros Hoff; discriminate Hoff].
      intros e He. injection He as <-. repeat split; reflexivity.
  - exists (Done tt), (apply_settings w s).
    unfold apply_settings. rewrite Hv.
    do 6 (split; [reflexivity|]).
    split; [intros _; split; reflexivity|].
    split; [intros e He; discriminate He | intros _; split; reflexivity].
Qed.

Lemma sidebar_leaves_conversation_alone_witness :
  exists (o : outcome unit) (s' : session_state),
    sidebar (index_in ["alloy"; "nova"])
      {| enable_voice_output := false; ai_voice := "onyx";
         auto_play_responses := false; input_language := Polish;
         new_conversation_clicked := false; voice_clicked := false;
         text_clicked := false; recorded := None; typed := None |}
      initial_state []
    = (o, s', [])
    /\ conversation_id s' = conversation_id initial_state
    /\ messages s' = messages initial_state
    /\ processed_audio_hash s' = processed_audio_hash initial_state
    /\ audio_input_key s' = audio_input_key initial_state
    /\ input_mode s' = input_mode initial_state
    /\ (voice_found (index_in ["alloy"; "nova"])
          {| enable_voice_output := false; ai_voice := "onyx";
             auto_play_responses := false; input_language := Polish;
             new_conversation_clicked := false; voice_clicked := false;
             text_clicked := false; recorded := None; typed := None |}
          initial_state ->
        o = Done tt
        /\ s' = apply_settings
                  {| enable_voice_output := false; ai_voice := "onyx";
                     auto_play_responses := false; input_language := Polish;
                     new_conversation_clicked := false;
                     voice_clicked := false; text_clicked := false;
                     recorded := None; typed := None |}
                  initial_state)
    /\ (forall e : exn, o = Raised e ->
          false = true
          /\ index_in ["alloy"; "nova"] (selected_voice initial_state)
             = Raise e
          /\ s' = set_voice_enabled true initial_state)
    /\ (false = false ->
        selected_voice s' = selected_voice initial_state
        /\ auto_play s' = auto_play initial_state).
Proof.
  apply (sidebar_leaves_conversation_alone (index_in ["alloy"; "nova"])
           {| enable_voice_output := false; ai_voice := "onyx";
              auto_play_responses := false; input_language := Polish;
              new_conversation_clicked := false; voice_clicked := false;
              text_clicked := false; recorded := None; typed := None |}
           initial_state []).
  reflexivity.
Defined.

Lemma process_voice_input_cases
    (clip : bytes) (s : session_state) (page : list ui) :
  process_voice_input clip s page
  = (Done tt, s,
     page ++ if same_hash (compute_audio_hash clip) (processed_audio_hash s)
             then []
             else [Spinner "Transcribing your voice...";
                   Warning "Could not transcribe audio. Please try again."]).
Proof.
  unfold process_voice_input, handle_transcript. open_script.
  destruct (same_hash (compute_audio_hash clip) (processed_audio_hash s));
    cbn [negb].
  - rewrite app_nil_r. reflexivity.
  - rewrite bool_decide_eq_true_2 by reflexivity. cbn [negb].
    rewrite <- app_assoc. reflexivity.
Qed.

Lemma input_section_unfold (w : widgets) (s : session_state)
    (page : list ui) :
  input_section w s page
  = if voice_clicked w then (Rerun, set_input_mode "voice" s, page)
    else if text_clicked w then (Rerun, set_input_mode "text" s, page)
    else if bool_decide (input_mode s = "voice") then
      match recorded w with
      | Some clip => process_voice_input clip s page
      | None => (Done tt, s, page)
      end
    else
      match typed w with
      | Some text =>
        if bool_decide (text = EmptyString) then (Done tt, s, page)
        else (Rerun,
              set_messages
                (messages s
                 ++ [{| role := "human"; content := text;
                        from_voice := Some false;
                        audio := None; just_generated := None |}]) s,
              page ++ Spinner "Thinking..."
                   :: (if voice_enabled s
                       then [Spinner "Generating voice response..."]
                       else []))
      | None => (Done tt, s, page)
      end.
Proof.
  unfold input_section, mode_toggle. open_script.
  destruct (voice_clicked w); [reflexivity|].
  destruct (text_clicked w); [reflexivity|].
  destruct (bool_decide (input_mode s = "voice")).
  - destruct (recorded w) as [clip|]; [|reflexivity].
    destruct (process_voice_input clip s page) as [[[[]| |e] s'] page'];
      reflexivity.
  - destruct (typed w) as [text|]; [|reflexivity].
    destruct (bool_decide (text = EmptyString)); cbn [negb]; [reflexivity|].
    unfold process_text_input. unfold mbind, script_bind, bind.
    rewrite process_user_input_appends_one. reflexivity.
Qed.

Lemma input_section_cases
    (w : widgets) (s : session_state) (page : list ui) :
  exists (o : outcome unit) (s' : session_state) (drawn : list ui),
    input_section w s page = (o, s', page ++ drawn)
    /\ input_outcome w s o s' drawn.
Proof.
  rewrite input_section_unfold.
  destruct (voice_clicked w) eqn:Hv.
  { exists Rerun, (set_input_mode "voice" s), []. rewrite app_nil_r.
    split; [reflexivity|]. apply switched. left.
    split; [exact Hv|reflexivity]. }
  destruct (text_clicked w) eqn:Ht.
  { exists Rerun, (set_input_mode "text" s), []. rewrite app_nil_r.
    split; [reflexivity|]. apply switched. right.
    split; [exact Hv|split; [exact Ht|reflexivity]]. }
  case_bool_decide as Hmode.
  - destruct (recorded w) as [clip|] eqn:Hrec.
    + rewrite process_voice_input_cases. unfold same_hash.
      case_bool_decide as Hhash.
      * exists (Done tt), s, []. split; [reflexivity|].
        apply untouched; try assumption; [|congruence].
        intros _. right. exists clip. split; [exact Hrec|exact Hhash].
      * eexists (Done tt), s, _. split; [reflexivity|].
        eapply retry; eassumption.
    + exists (Done tt), s, []. rewrite app_nil_r.
      split; [reflexivity|].
      apply untouched; try assumption; [|congruence].
      intros _. left. assumption.
  - destruct (typed w) as [text|] eqn:Htyped.
    + case_bool_decide as Htext.
      * exists (Done tt), s, []. rewrite app_nil_r.
        split; [reflexivity|]. subst text.
        apply untouched; try assumption; [congruence|].
        intros _. right. assumption.
      * eexists Rerun, _, _. split; [reflexivity|].
        apply typed_turn; assumption.
    + exists (Done tt), s, []. rewrite app_nil_r.
      split; [reflexivity|].
      apply untouched; try assumption; [congruence|].
      intros _. left. assumption.
Qed.

(** All the input section of a run does, as the script stands.  A click
    on Voice sets the input mode to "voice" and reruns; failing that, a
    click on Text sets it to "text" and reruns.  With no click, in
    voice mode, a recording whose hash is the stored one, or none,
    leaves everything as it is, and a recording with another hash gets
    the transcription spinner and the retry warning and nothing else;
    a typed line is not looked at.  With no click, out of voice mode, a
    typed, non-empty line is appended as a turn with role "human", the
    line as content and no voice mark, the two spinners are shown and
    the script reruns; no line, or an empty one, leaves everything as
    it is, and a recording is not looked at. *)
Theorem input_section_outcomes
    (w : widgets) (s : session_state) (page : list ui) :
  (voice_clicked w = true ->
   input_section w s page = (Rerun, set_input_mode "voice" s, page))
  /\ (voice_clicked w = false -> text_clicked w = true ->
      input_section w s page = (Rerun, set_input_mode "text" s, page))
  /\ (voice_clicked w = false -> text_clicked w = false ->
      input_mode s = "voice" -> recorded w = None ->
      input_section w s page = (Done tt, s, page))
  /\ (forall clip : bytes,
        voice_clicked w = false -> text_clicked w = false ->
        input_mode s = "voice" -> recorded w = Some clip ->
        compute_audio_hash clip = processed_audio_hash s ->
        input_section w s page = (Done tt, s, page))
  /\ (forall clip : bytes,
        voice_clicked w = false -> text_clicked w = false ->
        input_mode s = "voice" -> recorded w = Some clip ->
        compute_audio_hash clip <> processed_audio_hash s ->
        input_section w s page
        = (Done tt, s,
           page ++ [Spinner "Transcribing your voice...";
                    Warning "Could not transcribe audio. Please try again."]))
  /\ (voice_clicked w = false -> text_clicked w = false ->
      input_mode s <> "voice" ->
      typed w = None \/ typed w = Some EmptyString ->
      input_section w s page = (Done tt, s, page))
  /\ (forall text : string,
        voice_clicked w = false -> text_clicked w = false ->
        input_mode s <> "voice" ->
        typed w = Some text -> text <> EmptyString ->
        input_section w s page
        = (Rerun,
           set_messages
             (messages s
              ++ [{| role := "human"; content := text;
                     from_voice := Some false;
                     audio := None; just_generated := None |}]) s,
           page ++ Spinner "Thinking..."
                :: (if voice_enabled s
                    then [Spinner "Generating voice response..."]
                    else []))).
Proof.
  rewrite input_section_unfold. repeat split.
  - intros ->. reflexivity.
  - intros -> ->. reflexivity.
  - intros -> -> Hmode ->.
    rewrite bool_decide_eq_true_2 by exact Hmode. reflexivity.
  - intros clip -> -> Hmode -> Hhash.
    rewrite bool_decide_eq_true_2 by exact Hmode.
    rewrite process_voice_input_cases. unfold same_hash.
    rewrite bool_decide_eq_true_2 by exact Hhash.
    rewrite app_nil_r. reflexivity.
  - intros clip -> -> Hmode -> Hhash.
    rewrite bool_decide_eq_true_2 by exact Hmode.
    rewrite process_voice_input_cases. unfold same_hash.
    rewrite bool_decide_eq_false_2 by exact Hhash. reflexivity.
  - intros -> -> Hmode Htyped.
    rewrite bool_decide_eq_false_2 by exact Hmode.
    destruct Htyped as [-> | ->]; reflexivity.
  - intros text -> -> Hmode -> Htext.
    rewrite bool_decide_eq_false_2 by exact Hmode.
    rewrite bool_decide_eq_false_2 by exact Htext. reflexivity.
Qed.

Lemma input_section_outcomes_witness :
  input_section (typing "hello")
    (set_input_mode "text" initial_state) []
  = (Rerun,
     set_messages
       (messages (set_input_mode "text" initial_state)
        ++ [{| role := "human"; content := "hello";
               from_voice := Some false;
               audio := None; just_generated := None |}])
       (set_input_mode "text" initial_state),
     [] ++ Spinner "Thinking..."
        :: (if voice_enabled (set_input_mode "text" initial_state)
            then [Spinner "Generating voice response..."]
            else [])).
Proof.
  apply (proj2 (proj2 (proj2 (proj2 (proj2 (proj2
           (input_section_outcomes (typing "hello")
              (set_input_mode "text" initial_state) []))))))
           "hello");
    [reflexivity | reflexivity | discriminate | reflexivity | discriminate].
Defined.

(** *** Runs and sessions *)

Lemma apply_settings_conversation (w : widgets) (s : session_state) :
  conversation_id (apply_settings w s) = conversation_id s
  /\ messages (apply_settings w s) = messages s
  /\ processed_audio_hash (apply_settings w s) = processed_audio_hash s
  /\ audio_input_key (apply_settings w s) = audio_input_key s
  /\ input_mode (apply_settings w s) = input_mode s.
Proof.
  unfold apply_settings. cbn.
  destruct (enable_voice_output w); repeat split.
Qed.

Lemma apply_settings_voice (w : widgets) (s : session_state) :
  selected_voice (apply_settings w s) = selected_voice s
  \/ selected_voice (apply_settings w s) = ai_voice w.
Proof.
  unfold apply_settings. cbn.
  destruct (enable_voice_output w); [right|left]; reflexivity.
Qed.

(** The three ways of a run: it ends in the exception of the voice
    lookup, it ends in a reset, or it goes through the settings, the
    history and the input section. *)
Lemma run_cases (index : string -> result nat)
    (w : widgets) (s : session_state) :
  (exists e : exn,
     enable_voice_output w = true
     /\ index (selected_voice s) = Raise e
     /\ run index w s = (set_voice_enabled true s, []))
  \/ (voice_found index w s
      /\ new_conversation_clicked w = true
      /\ run index w s = (new_conversation (apply_settings w s), []))
  \/ (voice_found index w s
      /\ new_conversation_clicked w = false
      /\ exists (ms : list message) (shown drawn : list ui)
                (o : outcome unit) (s' : session_state),
           display_chat_history (apply_settings w s) []
           = (Done tt, set_messages ms (apply_settings w s), shown)
           /\ entry <$> ms = entry <$> messages s
           /\ input_outcome w (set_messages ms (apply_settings w s))
                o s' drawn
           /\ run index w s = (s', shown ++ drawn)).
Proof.
  assert (Hpast :
    voice_found index w s ->
    main index w s []
    = (if new_conversation_clicked w
       then (Rerun, new_conversation (apply_settings w s), [])
       else (display_chat_history ;; input_section w)
              (apply_settings w s) []) ->
    (voice_found index w s
     /\ new_conversation_clicked w = true
     /\ run index w s = (new_conversation (apply_settings w s), []))
    \/ (voice_found index w s
        /\ new_conversation_clicked w = false
        /\ exists (ms : list message) (shown drawn : list ui)
                  (o : outcome unit) (s' : session_state),
             display_chat_history (apply_settings w s) []
             = (Done tt, set_messages ms (apply_settings w s), shown)
             /\ entry <$> ms = entry <$> messages s
             /\ input_outcome w (set_messages ms (apply_settings w s))
                  o s' drawn
             /\ run index w s = (s', shown ++ drawn))).
  { intros Hfound Hmain. unfold run. rewrite Hmain.
    destruct (new_conversation_clicked w) eqn:Hclick.
    - left. repeat split; [exact Hfound].
    - right. split; [exact Hfound|]. split; [reflexivity|].
      destruct (display_chat_history_turns (apply_settings w s) [])
        as (ms & shown & Hshow & Hentries & _).
      destruct (input_section_cases w (set_messages ms (apply_settings w s))
                  shown) as (o & s' & drawn & Hin & Hout).
      exists ms, shown, drawn, o, s'.
      rewrite (proj1 (proj2 (apply_settings_conversation w s))) in Hentries.
      split; [exact Hshow|]. split; [exact Hentries|]. split; [exact Hout|].
      unfold mbind, script_bind, bind.
      rewrite Hshow. cbv beta iota. cbn [app].
      rewrite Hin. reflexivity. }
  pose proof (main_unfold index w s []) as Hmain.
  destruct (enable_voice_output w) eqn:Hv.
  - destruct (index (selected_voice s)) as [i|e] eqn:Hi.
    + right. apply Hpast; [right; exists i; exact Hi|exact Hmain].
    + left. exists e. split; [reflexivity|]. split; [reflexivity|].
      unfold run. rewrite Hmain. reflexivity.
  - right. apply Hpast; [left; exact Hv|exact Hmain].
Qed.

Lemma run_audio_input_key (index : string -> result nat)
    (w : widgets) (s : session_state) :
  audio_input_key s <= audio_input_key (run index w s).1
  <= audio_input_key s + (if new_conversation_clicked w then 1 else 0)
  /\ (voice_found index w s ->
      audio_input_key (run index w s).1
      = audio_input_key s + if new_conversation_clicked w then 1 else 0).
Proof.
  destruct (apply_settings_conversation w s) as (_ & _ & _ & Hkey & _).
  destruct (run_cases index w s)
    as [(e & Hon & Hi & ->)
       |[(Hfound & Hclick & ->)
        |(Hfound & Hclick & ms & shown & drawn & o & s' & _ & _ & Hout & ->)]];
    cbn [fst].
  - change (audio_input_key (set_voice_enabled true s))
      with (audio_input_key s).
    split; [destruct (new_conversation_clicked w); lia|].
    intros [Hoff|[i Hi']]; congruence.
  - rewrite Hclick.
    change (audio_input_key (new_conversation (apply_settings w s)))
      with (audio_input_key (apply_settings w s) + 1).
    rewrite Hkey. split; [lia|reflexivity].
  - rewrite Hclick.
    assert (audio_input_key s' = audio_input_key s) as ->.
    { inversion Hout; subst;
        cbn [audio_input_key set_input_mode set_messages];
        exact Hkey. }
    split; [lia|intros _; lia].
Qed.

Lemma run_selected_voice (index : string -> result nat)
    (w : widgets) (s : session_state) :
  selected_voice (run index w s).1 = selected_voice s
  \/ selected_voice (run index w s).1 = ai_voice w.
Proof.
  destruct (run_cases index w s)
    as [(e & Hon & Hi & ->)
       |[(Hfound & Hclick & ->)
        |(Hfound & Hclick & ms & shown & drawn & o & s' & _ & _ & Hout & ->)]];
    cbn [fst].
  - left. reflexivity.
  - exact (apply_settings_voice w s).
  - assert (selected_voice s' = selected_voice (apply_settings w s)) as ->.
    { inversion Hout; subst; reflexivity. }
    exact (apply_settings_voice w s).
Qed.

Lemma resets_cons (w : widgets) (ws : list widgets) :
  resets (w :: ws)
  = (if new_conversation_clicked w then 1 else 0) + resets ws.
Proof.
  unfold resets. rewrite filter_cons.
  destruct (new_conversation_clicked w); case_decide; try congruence;
    cbn [length]; lia.
Qed.

(** The key of the recording widget counts the resets.  Over any series
    of runs it never goes down and goes up by at most one for each
    click on "New Conversation"; it changes at no other time (as the
    script stands, the voice handler never gets to the increment of its
    own).  When the voice stored at the start and every voice the voice
    box hands over are on offer, so that no run ends in the sidebar's
    voice lookup, it goes up by exactly one for each click. *)
Theorem widget_key_counts_resets
    (index : string -> result nat) (ws : list widgets) :
  forall s : session_state,
    audio_input_key s <= audio_input_key (session index ws s).1
    <= audio_input_key s + resets ws
    /\ ((forall v : string,
           v = selected_voice s \/ v ∈ ai_voice <$> ws ->
           exists i : nat, index v = Ok i) ->
        audio_input_key (session index ws s).1
        = audio_input_key s + resets ws).
Proof.
  induction ws as [|w rest IH]; intros s.
  - cbn. unfold resets. cbn. split; [lia|intros _; lia].
  - rewrite session_cons, resets_cons. cbn [fst].
    destruct (run_audio_input_key index w s) as [Hbound Hexact].
    destruct (IH (run index w s).1) as [Hbound' Hexact'].
    split; [lia|]. intros Hall.
    rewrite Hexact', Hexact.
    + lia.
    + right. apply Hall. left. reflexivity.
    + intros v [->|Hv].
      * destruct (run_selected_voice index w s) as [-> | ->].
        -- apply Hall. left. reflexivity.
        -- apply Hall. right. rewrite fmap_cons. left.
      * apply Hall. right. rewrite fmap_cons. right. exact Hv.
Qed.

Lemma widget_key_counts_resets_witness :
  audio_input_key
    (session (index_in ["alloy"; "nova"])
       [click_new_conversation; typing "hello"; click_new_conversation]
       initial_state).1
  = audio_input_key initial_state
    + resets [click_new_conversation; typing "hello"; click_new_conversation].
Proof.
  apply (proj2 (widget_key_counts_resets (index_in ["alloy"; "nova"])
                  [click_new_conversation; typing "hello";
                   click_new_conversation]
                  initial_state)).
  intros v [->|Hv].
  - exists 1%nat. reflexivity.
  - cbn in Hv. exists 1%nat.
    repeat (apply elem_of_cons in Hv as [->|Hv]; [reflexivity|]).
    apply elem_of_nil in Hv. destruct Hv.
Defined.

(** The transcript is only ever added to at its end, or cleared.  A run
    that gets past the voice lookup with a click on "New Conversation"
    leaves it empty; a run that ends in the lookup leaves it as it was.
    Any other run keeps the turns it found, in order and with role,
    content, voice mark and audio unchanged, and adds one turn exactly
    when a non-empty line was typed with no mode button clicked and the
    input mode not "voice": the turn with role "human", that line as
    content and the voice mark [False].  In every other case it adds
    none. *)
Theorem transcript_is_append_only
    (index : string -> result nat) (w : widgets) (s : session_state) :
  (new_conversation_clicked w = true -> voice_found index w s ->
   messages (run index w s).1 = [])
  /\ (forall e : exn,
        enable_voice_output w = true ->
        index (selected_voice s) = Raise e ->
        messages (run index w s).1 = messages s)
  /\ (new_conversation_clicked w = false -> voice_found index w s ->
      exists extra : list message,
        entry <$> messages (run index w s).1
        = (entry <$> messages s) ++ (entry <$> extra)
        /\ (forall text : string,
              voice_clicked w = false -> text_clicked w = false ->
              input_mode s <> "voice" ->
              typed w = Some text -> text <> EmptyString ->
              extra = [{| role := "human"; content := text;
                          from_voice := Some false;
                          audio := None; just_generated := None |}])
        /\ (extra = []
            \/ exists text : string,
                 voice_clicked w = false /\ text_clicked w = false
                 /\ input_mode s <> "voice"
                 /\ typed w = Some text /\ text <> EmptyString
                 /\ extra = [{| role := "human"; content := text;
                                from_voice := Some false;
                                audio := None; just_generated := None |}])).
Proof.
  destruct (apply_settings_conversation w s) as (_ & _ & _ & _ & Hmode).
  destruct (run_cases index w s)
    as [(e & Hon & Hi & ->)
       |[(Hfound & Hclick & ->)
        |(Hfound & Hclick & ms & shown & drawn & o & s' & _ & Hentries
          & Hout & ->)]];
    cbn [fst].
  - split; [intros _ [Hoff|[i Hi']]; congruence|].
    split; [intros e' _ _; reflexivity|].
    intros _ [Hoff|[i Hi']]; congruence.
  - split; [intros _ _; reflexivity|].
    split; [|intros Hno; congruence].
    intros e Hon Hi. destruct Hfound as [Hoff|[i Hi']]; congruence.
  - split; [intros Hyes; congruence|].
    split.
    { intros e Hon Hi. destruct Hfound as [Hoff|[i Hi']]; congruence. }
    intros _ _.
    inversion Hout as [mode Hswitch| text Hv Ht Hm Htyped Htext
                      | clip Hv Ht Hm Hrec Hhash | Hv Ht Hvoice Htext];
      subst; cbn [messages set_messages set_input_mode input_mode] in *;
      rewrite ?Hmode in *.
    + exists []. rewrite app_nil_r. split; [exact Hentries|].
      split; [|left; reflexivity].
      intros text Hv Ht _ _ _.
      destruct Hswitch as [[Hv' _]|(_ & Ht' & _)]; congruence.
    + exists [{| role := "human"; content := text;
                 from_voice := Some false;
                 audio := None; just_generated := None |}].
      rewrite fmap_app, Hentries.
      split; [reflexivity|]. split.
      * intros text' _ _ _ Htyped' _. congruence.
      * right. exists text. repeat split; assumption.
    + exists []. rewrite app_nil_r. split; [exact Hentries|].
      split; [|left; reflexivity].
      intros text _ _ Hm' _ _. congruence.
    + exists []. rewrite app_nil_r. split; [exact Hentries|].
      split; [|left; reflexivity].
      intros text _ _ Hm' Htyped' Hsome.
      destruct (Htext Hm') as [Hnone|Hempty]; congruence.
Qed.

Lemma transcript_is_append_only_witness :
  exists extra : list message,
    entry <$> messages
                (run (index_in ["alloy"; "nova"]) (typing "and then?")
                   (set_input_mode "text"
                      (set_messages [human_turn "hello" false]
                         initial_state))).1
    = (entry <$> messages
                   (set_input_mode "text"
                      (set_messages [human_turn "hello" false]
                         initial_state)))
      ++ (entry <$> extra)
    /\ (forall text : string,
          voice_clicked (typing "and then?") = false ->
          text_clicked (typing "and then?") = false ->
          input_mode (set_input_mode "text"
                        (set_messages [human_turn "hello" false]
                           initial_state)) <> "voice" ->
          typed (typing "and then?") = Some text -> text <> EmptyString ->
          extra = [{| role := "human"; content := text;
                      from_voice := Some false;
                      audio := None; just_generated := None |}])
    /\ (extra = []
        \/ exists text : string,
             voice_clicked (typing "and then?") = false
             /\ text_clicked (typing "and then?") = false
             /\ input_mode (set_input_mode "text"
                              (set_messages [human_turn "hello" false]
                                 initial_state)) <> "voice"
             /\ typed (typing "and then?") = Some text
             /\ text <> EmptyString
             /\ extra = [{| role := "human"; content := text;
                            from_voice := Some false;
                            audio := None; just_generated := None |}]).
Proof.
  apply (proj2 (proj2 (transcript_is_append_only
                         (index_in ["alloy"; "nova"]) (typing "and then?")
                         (set_input_mode "text"
                            (set_messages [human_turn "hello" false]
                               initial_state))))).
  - reflexivity.
  - right. exists 1%nat. reflexivity.
Defined.

Lemma display_from_typed (s : session_state) (len : nat)
    (ms : list message) :
  Forall (fun m => exists text, m = human_turn text false) ms ->
  forall idx : nat,
    (display_from s len idx ms).1 = ms
    /\ Forall plain (display_from s len idx ms).2.
Proof.
  induction 1 as [|m rest [text ->] _ IH]; intros idx; cbn [display_from].
  - split; [reflexivity|constructor].
  - destruct (IH (S idx)) as [Hms Hplain].
    destruct (display_from s len (S idx) rest) as [rest' shown'].
    cbn [fst snd] in *. subst rest'.
    unfold display_message. cbn [role human_turn].
    rewrite bool_decide_eq_true_2 by reflexivity. cbn [fst snd app].
    split; [reflexivity|].
    constructor; [left; eexists; reflexivity|exact Hplain].
Qed.

Lemma run_typed_only (index : string -> result nat)
    (w : widgets) (s : session_state) :
  typed_only s ->
  typed_only (run index w s).1 /\ Forall plain (run index w s).2.
Proof.
  intros (Hid & Hhash & Hall).
  destruct (apply_settings_conversation w s)
    as (Hid' & Hms' & Hhash' & _ & _).
  destruct (run_cases index w s)
    as [(e & Hon & Hi & ->)
       |[(Hfound & Hclick & ->)
        |(Hfound & Hclick & ms & shown & drawn & o & s' & Hshow & _
          & Hout & ->)]];
    cbn [fst snd].
  - split; [|constructor]. repeat split; assumption.
  - split; [|constructor]. repeat split. constructor.
  - unfold display_chat_history in Hshow. rewrite Hms' in Hshow.
    destruct (display_from_typed (apply_settings w s)
                (length (messages s)) (messages s) Hall 0) as [Hsame Hplain].
    destruct (display_from (apply_settings w s) (length (messages s)) 0
                (messages s)) as [ms0 shown0].
    cbn [fst snd app] in *. subst ms0.
    assert (ms = messages s /\ shown = shown0) as [-> ->].
    { inversion Hshow. split; congruence. }
    inversion Hout as [mode Hswitch| text Hv Ht Hm Htyped Htext
                      | clip Hv Ht Hm Hrec Hneq | Hv Ht Hvoice Htext];
      subst; unfold typed_only;
      cbn [conversation_id processed_audio_hash messages
           set_input_mode set_messages] in *;
      rewrite ?Hid', ?Hhash' in *.
    + split; [|rewrite app_nil_r; exact Hplain].
      repeat split; assumption.
    + split.
      * repeat split; try assumption.
        apply Forall_app. split; [exact Hall|].
        constructor; [eexists; reflexivity|constructor].
      * apply Forall_app. split; [exact Hplain|].
        constructor; [right; left; reflexivity|].
        destruct (voice_enabled _); [|constructor].
        constructor; [right; right; reflexivity|constructor].
    + exfalso. rewrite Hhash in Hneq. apply Hneq. reflexivity.
    + split; [|rewrite app_nil_r; exact Hplain].
      repeat split; assumption.
Qed.

(** In a session that starts from the initial state, as the script
    stands, speaking gets nowhere: [compute_audio_hash] gives [None]
    for every clip, which is what the stored hash is, so no recording
    is ever transcribed.  Whatever the voices on offer and whatever the
    widgets hand over, run after run, the conversation id and the
    stored hash stay [None], every turn in the transcript is a typed
    user turn, and the pages the script draws show bubbles and the two
    spinners of [process_user_input] only: no transcription spinner, no
    warning, no error box, no audio player. *)
Theorem recordings_are_never_transcribed
    (index : string -> result nat) (ws : list widgets) :
  typed_only (session index ws initial_state).1
  /\ Forall (Forall plain) (session index ws initial_state).2.
Proof.
  assert (Hgen : forall s, typed_only s ->
             typed_only (session index ws s).1
             /\ Forall (Forall plain) (session index ws s).2).
  { induction ws as [|w rest IH]; intros s Hs.
    - cbn. split; [exact Hs|constructor].
    - rewrite session_cons. cbn [fst snd].
      destruct (run_typed_only index w s Hs) as [Hs' Hpage].
      destruct (IH _ Hs') as [Hend Hpages].
      split; [exact Hend|constructor; assumption]. }
  apply Hgen. repeat split. constructor.
Qed.

(** With a transcript in hand, the voice handler leaves the clip's hash
    stored, the widget key moved on by one, and one turn appended to
    the transcript: role "human", the transcript as content, the voice
    mark [True], no audio.  It shows the spinners of
    [process_user_input] and ends in a rerun.  Nothing else of the
    session is written. *)
Theorem spoken_turn_is_committed
    (transcript : string) (audio_hash : option string)
    (s : session_state) (page : list ui) :
  transcript <> EmptyString ->
  handle_transcript transcript audio_hash s page
  = (Rerun,
     {| conversation_id := conversation_id s;
        messages := messages s
                    ++ [{| role := "human"; content := transcript;
                           from_voice := Some true;
                           audio := None; just_generated := None |}];
        voice_enabled := voice_enabled s;
        selected_voice := selected_voice s;
        auto_play := auto_play s;
        transcription_language := transcription_language s;
        processed_audio_hash := audio_hash;
        audio_input_key := audio_input_key s + 1;
        input_mode := input_mode s |},
     page ++ Spinner "Thinking..."
          :: (if voice_enabled s
              then [Spinner "Generating voice response..."] else [])).
Proof.
  intros Hsome.
  rewrite (handle_transcript_commits_first transcript audio_hash s page Hsome).
  reflexivity.
Qed.

Lemma spoken_turn_is_committed_witness :
  handle_transcript "hello" (Some "5d41402abc4b2a76b9719d911017c592")
    initial_state []
  = (Rerun,
     {| conversation_id := conversation_id initial_state;
        messages := messages initial_state
                    ++ [{| role := "human"; content := "hello";
                           from_voice := Some true;
                           audio := None; just_generated := None |}];
        voice_enabled := voice_enabled initial_state;
        selected_voice := selected_voice initial_state;
        auto_play := auto_play initial_state;
        transcription_language := transcription_language initial_state;
        processed_audio_hash := Some "5d41402abc4b2a76b9719d911017c592";
        audio_input_key := audio_input_key initial_state + 1;
        input_mode := input_mode initial_state |},
     [] ++ Spinner "Thinking..."
        :: (if voice_enabled initial_state
            then [Spinner "Generating voice response..."] else [])).
Proof.
  apply (spoken_turn_is_committed "hello"
           (Some "5d41402abc4b2a76b9719d911017c592") initial_state []).
  discriminate.
Defined.

End PageFacts.
